(** * YOLO labelling tool: the annotation engine of [app.py]

    A shallow embedding of the two widgets of [app.py], [ImageLabel] and
    [LabelingTool]: the display transform, the mouse-driven box editor, the
    class registry ([class_to_id] with its counter) and the label writer.

    Conventions of the embedding.
    - A Python [float] is idealised as an exact rational ([Qc], the
      canonical rationals, so that equal numbers are equal terms); rounding
      and the decimal text of a float are outside the model.
    - A Python [int] is a [Z].
    - A handler that raises ends in [Raise e]; one that returns ends in
      [Ok v].
    - A pixmap is modelled by its size: nothing in the engine reads pixels. *)

From Stdlib Require Import ZArith QArith Qcanon List String Bool Lia.
From Stdlib Require Import Permutation Sorted.
Import ListNotations.

Local Open Scope Z_scope.

(** ** Python exceptions and fallible results *)

Inductive PyExc : Type :=
| ZeroDivisionError
| ValueError
| IndexError
| KeyError
| TypeError
| AttributeError
| OSError.

Inductive result (A : Type) : Type :=
| Ok (a : A)
| Raise (e : PyExc).

Arguments Ok {A} a.
Arguments Raise {A} e.

Definition bind {A B : Type} (r : result A) (k : A -> result B) : result B :=
  match r with
  | Ok a => k a
  | Raise e => Raise e
  end.

Notation "x <- r ;; k" := (bind r (fun x => k))
  (at level 61, r at next level, right associativity).
Notation "' p <- r ;; k" := (bind r (fun v => let p := v in k))
  (at level 61, p pattern, r at next level, right associativity).

(** ** Numbers *)

(** An [int] used where Python computes with floats. *)
Definition Z2Qc (z : Z) : Qc := Q2Qc (inject_Z z).

(** [a / b] on numbers: true division, [ZeroDivisionError] on a zero
    divisor. *)
Definition py_div (a b : Qc) : result Qc :=
  if Qc_eq_dec b (Z2Qc 0) then Raise ZeroDivisionError else Ok (a / b)%Qc.

(** [min(a, b)]: the first argument unless the second is smaller. *)
Definition py_min (a b : Qc) : Qc :=
  match (b ?= a)%Qc with
  | Lt => b
  | _ => a
  end.

(** [int(q)]: truncation toward zero. *)
Definition py_int (q : Qc) : Z := Z.quot (Qnum q) (Zpos (Qden q)).

(** ** The toolkit

    [QSize] is a width and a height in pixels.  The one toolkit function
    whose result the engine computes with is [QPixmap.scaled(size,
    Qt.KeepAspectRatio, ...)], through the size of the pixmap it returns. *)

Record QSize : Type := mkSize { width : Z; height : Z }.

Record Toolkit : Type := mkToolkit {
  (** [pixmap_scaled orig target]: the size of
      [orig.scaled(target, Qt.KeepAspectRatio, Qt.SmoothTransformation)]. *)
  pixmap_scaled : QSize -> QSize -> QSize
}.

(** Qt 5's scaling of a pixmap of size [orig] into [target], keeping the
    aspect ratio: a null pixmap for a null source or an empty target,
    otherwise the integer size [QSize::scaled] computes (the full target
    height when the width that goes with it fits, the full target width
    otherwise), each side at least one pixel. *)
Definition qt_keep_aspect (orig target : QSize) : QSize :=
  if (width orig <=? 0) || (height orig <=? 0) then mkSize 0 0
  else if (width target <=? 0) || (height target <=? 0) then mkSize 0 0
  else
    let rw := Z.quot (height target * width orig) (height orig) in
    if rw <=? width target
    then mkSize (Z.max rw 1) (Z.max (height target) 1)
    else mkSize (Z.max (width target) 1)
                (Z.max (Z.quot (width target * height orig) (width orig)) 1).

Definition Qt5 : Toolkit := mkToolkit qt_keep_aspect.

(** ** The class registry: a Python [dict] from class name to id

    A [dict] keeps its keys in insertion order, and the reverse lookup of
    [paintEvent] takes the first match in that order, so the registry is an
    association list with the [dict] operations the program uses. *)

Definition dict : Type := list (string * Z).

Fixpoint dict_get (k : string) (d : dict) : option Z :=
  match d with
  | [] => None
  | (k', v) :: t => if String.eqb k k' then Some v else dict_get k t
  end.

(** [k in d] *)
Definition dict_contains (k : string) (d : dict) : bool :=
  match dict_get k d with
  | Some _ => true
  | None => false
  end.

(** [d[k] = v]: the value of an existing key is replaced where it stands, a
    new key goes last. *)
Fixpoint dict_set (k : string) (v : Z) (d : dict) : dict :=
  match d with
  | [] => [(k, v)]
  | (k', v') :: t =>
      if String.eqb k k' then (k, v) :: t else (k', v') :: dict_set k v t
  end.

Definition dict_values (d : dict) : list Z := map snd d.

(** [max(xs)]: [ValueError] on an empty sequence. *)
Definition py_max (xs : list Z) : result Z :=
  match xs with
  | [] => Raise ValueError
  | x :: t => Ok (fold_left Z.max t x)
  end.

(** Lines 161-166 of [add_class_id]: the id of [class_name], registering it
    under the counter's value when it is new.  Returns the id, the registry
    and the counter. *)
Definition resolve (class_name : string) (class_to_id : dict)
    (current_class_id : Z) : result (Z * dict * Z) :=
  let '(d, n) :=
    if negb (dict_contains class_name class_to_id)
    then (dict_set class_name current_class_id class_to_id,
          current_class_id + 1)
    else (class_to_id, current_class_id) in
  match dict_get class_name d with
  | Some class_id => Ok (class_id, d, n)
  | None => Raise KeyError
  end.

(** Resolving a list of names in turn, threading the registry. *)
Fixpoint resolve_all (names : list string) (d : dict) (n : Z)
    : result (list Z * dict * Z) :=
  match names with
  | [] => Ok ([], d, n)
  | name :: rest =>
      ' (id, d1, n1) <- resolve name d n ;;
      ' (ids, d2, n2) <- resolve_all rest d1 n1 ;;
      Ok (id :: ids, d2, n2)
  end.

(** Line 85 of [paintEvent]:
    [[name for name, id in class_to_id.items() if id == class_id][0]]. *)
Definition reverse_lookup (class_to_id : dict) (class_id : Z) : result string :=
  match map fst (filter (fun item => Z.eqb (snd item) class_id) class_to_id) with
  | [] => Raise IndexError
  | name :: _ => Ok name
  end.

(** ** Boxes

    [current_bbox] is the four-element list [[x, y, w, h]] in image space;
    [add_class_id] appends the class id to that same list, which then sits in
    [bboxes] as [[x, y, w, h, class_id]]. *)

Record PendingBox : Type := mkPending {
  px : Qc; py : Qc; pw : Qc; ph : Qc
}.

Record CommittedBox : Type := mkBox {
  bx : Qc; by_ : Qc; bw : Qc; bh : Qc; bclass : Z
}.

(** [current_bbox.append(class_id)] *)
Definition append_class (b : PendingBox) (class_id : Z) : CommittedBox :=
  mkBox (px b) (py b) (pw b) (ph b) class_id.

(** ** Widget state *)

Record ImageLabel : Type := mkImageLabel {
  bboxes : list CommittedBox;
  current_bbox : option PendingBox;
  drawing : bool;
  scale_factor : Qc;
  image_offset : Qc * Qc;
  (** [None] until [setPixmap]; a [QPixmap] object, null or not, counts as
      true in [if self.original_pixmap] *)
  original_pixmap : option QSize;
  (** [start_x], [start_y]: attributes that exist from the first press on *)
  start_xy : option (Qc * Qc);
  (** the widget's own geometry, [self.size()] *)
  label_size : QSize;
  (** [QLabel.pixmap()]: what [super().setPixmap] was last given *)
  shown_pixmap : option QSize
}.

Record LabelingTool : Type := mkTool {
  class_to_id : dict;
  current_class_id : Z;
  label : ImageLabel;
  class_input_enabled : bool;
  save_button_enabled : bool;
  (** [image_path]: an attribute that exists from the first [load_image] on *)
  image_path : option string
}.

Definition with_label (w : LabelingTool) (l : ImageLabel) : LabelingTool :=
  mkTool (class_to_id w) (current_class_id w) l (class_input_enabled w)
         (save_button_enabled w) (image_path w).

Definition with_class_input (w : LabelingTool) (b : bool) : LabelingTool :=
  mkTool (class_to_id w) (current_class_id w) (label w) b
         (save_button_enabled w) (image_path w).

Definition with_save_button (w : LabelingTool) (b : bool) : LabelingTool :=
  mkTool (class_to_id w) (current_class_id w) (label w)
         (class_input_enabled w) b (image_path w).

Definition with_image_path (w : LabelingTool) (p : string) : LabelingTool :=
  mkTool (class_to_id w) (current_class_id w) (label w)
         (class_input_enabled w) (save_button_enabled w) (Some p).

Definition with_registry (w : LabelingTool) (d : dict) (n : Z) : LabelingTool :=
  mkTool d n (label w) (class_input_enabled w) (save_button_enabled w)
         (image_path w).

Definition with_bboxes (l : ImageLabel) (bs : list CommittedBox) : ImageLabel :=
  mkImageLabel bs (current_bbox l) (drawing l) (scale_factor l)
    (image_offset l) (original_pixmap l) (start_xy l) (label_size l)
    (shown_pixmap l).

Definition with_current_bbox (l : ImageLabel) (b : option PendingBox)
    : ImageLabel :=
  mkImageLabel (bboxes l) b (drawing l) (scale_factor l) (image_offset l)
    (original_pixmap l) (start_xy l) (label_size l) (shown_pixmap l).

Definition with_drawing (l : ImageLabel) (b : bool) : ImageLabel :=
  mkImageLabel (bboxes l) (current_bbox l) b (scale_factor l)
    (image_offset l) (original_pixmap l) (start_xy l) (label_size l)
    (shown_pixmap l).

Definition with_transform (l : ImageLabel) (s : Qc) (off : Qc * Qc)
    (shown : QSize) : ImageLabel :=
  mkImageLabel (bboxes l) (current_bbox l) (drawing l) s off
    (original_pixmap l) (start_xy l) (label_size l) (Some shown).

Definition with_original_pixmap (l : ImageLabel) (p : QSize) : ImageLabel :=
  mkImageLabel (bboxes l) (current_bbox l) (drawing l) (scale_factor l)
    (image_offset l) (Some p) (start_xy l) (label_size l) (shown_pixmap l).

Definition with_start_xy (l : ImageLabel) (s : Qc * Qc) : ImageLabel :=
  mkImageLabel (bboxes l) (current_bbox l) (drawing l) (scale_factor l)
    (image_offset l) (original_pixmap l) (Some s) (label_size l)
    (shown_pixmap l).

Definition with_label_size (l : ImageLabel) (sz : QSize) : ImageLabel :=
  mkImageLabel (bboxes l) (current_bbox l) (drawing l) (scale_factor l)
    (image_offset l) (original_pixmap l) (start_xy l) sz (shown_pixmap l).

(** [ImageLabel.__init__] (lines 12-22), at the geometry [LabelingTool]
    gives the widget. *)
Definition new_label (sz : QSize) : ImageLabel :=
  mkImageLabel [] None false (Z2Qc 1) (Z2Qc 0, Z2Qc 0) None None sz None.

(** ** [ImageLabel]: display transform and mouse handlers *)

Section Handlers.

Variable tk : Toolkit.

(** [update_scaled_pixmap] (lines 28-36). *)
Definition update_scaled_pixmap (l : ImageLabel) : result ImageLabel :=
  match original_pixmap l with
  | Some orig =>
      let scaled_pixmap := pixmap_scaled tk orig (label_size l) in
      sx <- py_div (Z2Qc (width (label_size l))) (Z2Qc (width orig)) ;;
      sy <- py_div (Z2Qc (height (label_size l))) (Z2Qc (height orig)) ;;
      let scale := py_min sx sy in
      let offset :=
        ((Z2Qc (width (label_size l) - width scaled_pixmap) / Z2Qc 2)%Qc,
         (Z2Qc (height (label_size l) - height scaled_pixmap) / Z2Qc 2)%Qc) in
      Ok (with_transform l scale offset scaled_pixmap)
  | None => Ok l
  end.

(** [setPixmap] (lines 24-26). *)
Definition setPixmap (pixmap : QSize) (l : ImageLabel) : result ImageLabel :=
  update_scaled_pixmap (with_original_pixmap l pixmap).

(** [resizeEvent] (lines 38-40); the widget already has its new size. *)
Definition resizeEvent (sz : QSize) (l : ImageLabel) : result ImageLabel :=
  update_scaled_pixmap (with_label_size l sz).

(** Display space to image space, as the mouse handlers compute it
    (lines 45-46 and 52-53). *)
Definition to_image_space (l : ImageLabel) (p : Qc * Qc) : result (Qc * Qc) :=
  x <- py_div (fst p - fst (image_offset l))%Qc (scale_factor l) ;;
  y <- py_div (snd p - snd (image_offset l))%Qc (scale_factor l) ;;
  Ok (x, y).

(** Image space to display space, as [paintEvent] computes it
    (lines 77-78 and 91-92). *)
Definition to_display_space (l : ImageLabel) (p : Qc * Qc) : Qc * Qc :=
  ((fst p * scale_factor l + fst (image_offset l))%Qc,
   (snd p * scale_factor l + snd (image_offset l))%Qc).

(** [mousePressEvent] (lines 42-48); [left_button] is
    [event.button() == Qt.LeftButton]. *)
Definition mousePressEvent (left_button : bool) (ex ey : Z) (w : LabelingTool)
    : result LabelingTool :=
  let l := label w in
  match left_button, original_pixmap l with
  | true, Some _ =>
      let l1 := with_drawing l true in
      ' (sx, sy) <- to_image_space l1 (Z2Qc ex, Z2Qc ey) ;;
      let l2 := with_start_xy l1 (sx, sy) in
      let l3 :=
        with_current_bbox l2 (Some (mkPending sx sy (Z2Qc 0) (Z2Qc 0))) in
      Ok (with_class_input (with_label w l3) false)
  | _, _ => Ok w
  end.

(** [mouseMoveEvent] (lines 50-56). *)
Definition mouseMoveEvent (ex ey : Z) (w : LabelingTool) : result LabelingTool :=
  let l := label w in
  if drawing l then
    ' (end_x, end_y) <- to_image_space l (Z2Qc ex, Z2Qc ey) ;;
    match start_xy l with
    | None => Raise AttributeError
    | Some (start_x, start_y) =>
        match current_bbox l with
        | None => Raise TypeError
        | Some b =>
            let b1 := mkPending (px b) (py b) (end_x - start_x)%Qc (ph b) in
            let b2 := mkPending (px b1) (py b1) (pw b1) (end_y - start_y)%Qc in
            Ok (with_label w (with_current_bbox l (Some b2)))
        end
    end
  else Ok w.

(** [mouseReleaseEvent] (lines 58-63). *)
Definition mouseReleaseEvent (left_button : bool) (w : LabelingTool)
    : result LabelingTool :=
  if left_button && drawing (label w)
  then Ok (with_class_input (with_label w (with_drawing (label w) false)) true)
  else Ok w.

(** What [paintEvent] asks the painter to draw. *)
Inductive DrawCmd : Type :=
| DrawPixmap (x y : Z) (pixmap : QSize)
| DrawRect (x y w h : Qc)
| DrawText (x y : Qc) (text : string).

Definition rect_of (l : ImageLabel) (x y w h : Qc) : DrawCmd :=
  let '(dx, dy) := to_display_space l (x, y) in
  DrawRect dx dy (w * scale_factor l)%Qc (h * scale_factor l)%Qc.

(** The loop of lines 75-86 over the committed boxes. *)
Fixpoint paint_bboxes (registry : dict) (l : ImageLabel)
    (bs : list CommittedBox) : result (list DrawCmd) :=
  match bs with
  | [] => Ok []
  | bbox :: rest =>
      let '(dx, dy) := to_display_space l (bx bbox, by_ bbox) in
      class_name <- reverse_lookup registry (bclass bbox) ;;
      cmds <- paint_bboxes registry l rest ;;
      Ok (rect_of l (bx bbox) (by_ bbox) (bw bbox) (bh bbox)
          :: DrawText dx dy class_name :: cmds)
  end.

(** [paintEvent] (lines 65-97). *)
Definition paintEvent (w : LabelingTool) : result (list DrawCmd) :=
  let l := label w in
  match original_pixmap l with
  | Some _ =>
      match shown_pixmap l with
      | None => Raise TypeError
      | Some scaled_pixmap =>
          let background :=
            DrawPixmap (py_int (fst (image_offset l)))
                       (py_int (snd (image_offset l))) scaled_pixmap in
          saved <- paint_bboxes (class_to_id w) l (bboxes l) ;;
          let pending :=
            match current_bbox l with
            | Some b => [rect_of l (px b) (py b) (pw b) (ph b)]
            | None => []
            end in
          Ok (background :: saved ++ pending)
      end
  | None => Ok []
  end.

(** ** [LabelingTool]: start-up, load, commit and save *)

(** [LabelingTool.__init__] (lines 101-149).  [persisted] is the content of
    [class_to_id_mapping.json], [None] when the file does not exist.  The
    label starts at the 800 x 600 of [setGeometry(50, 50, 800, 600)]; what
    the layout makes of it afterwards arrives as [resizeEvent]s.  The
    window's own [bboxes] list is never read and is left out. *)
Definition init (persisted : option dict) : result LabelingTool :=
  ' (d, n) <-
    match persisted with
    | Some mapping =>
        m <- py_max (dict_values mapping) ;;
        Ok (mapping, m + 1)
    | None => Ok ([], 0)
    end ;;
  Ok (mkTool d n (new_label (mkSize 800 600)) false false None).

(** [load_image] (lines 151-156).  [path] is the dialog's answer (empty when
    it is cancelled) and [pixmap] the size of [QPixmap(path)]. *)
Definition load_image (path : string) (pixmap : QSize) (w : LabelingTool)
    : result LabelingTool :=
  let w1 := with_image_path w path in
  if String.eqb path "" then Ok w1
  else
    l <- setPixmap pixmap (label w1) ;;
    Ok (with_save_button (with_label w1 (with_bboxes l [])) false).

(** [add_class_id] (lines 158-172).  [class_name] is the text of the input
    field.  A pending box is a four-element list, so it is true whenever it
    is not [None]. *)
Definition add_class_id (class_name : string) (w : LabelingTool)
    : result LabelingTool :=
  match current_bbox (label w) with
  | Some b =>
      if negb (String.eqb class_name "") then
        ' (class_id, d, n) <-
          resolve class_name (class_to_id w) (current_class_id w) ;;
        let l := label w in
        let l1 := with_bboxes l (bboxes l ++ [append_class b class_id]) in
        let l2 := with_current_bbox l1 None in
        Ok (with_save_button (with_label (with_registry w d n) l2) true)
      else Ok w
  | None => Ok w
  end.

(** One line of the label file: the class id and the four numbers that
    follow it. *)
Record LabelLine : Type := mkLine {
  line_class : Z;
  x_center : Qc;
  y_center : Qc;
  width_norm : Qc;
  height_norm : Qc
}.

(** Lines 193-198, for an image of size [img]. *)
Definition label_line (img : QSize) (bbox : CommittedBox) : result LabelLine :=
  xc <- py_div (bx bbox + bw bbox / Z2Qc 2)%Qc (Z2Qc (width img)) ;;
  yc <- py_div (by_ bbox + bh bbox / Z2Qc 2)%Qc (Z2Qc (height img)) ;;
  wn <- py_div (bw bbox) (Z2Qc (width img)) ;;
  hn <- py_div (bh bbox) (Z2Qc (height img)) ;;
  Ok (mkLine (bclass bbox) xc yc wn hn).

Fixpoint label_lines (img : QSize) (bs : list CommittedBox)
    : result (list LabelLine) :=
  match bs with
  | [] => Ok []
  | bbox :: rest =>
      line <- label_line img bbox ;;
      lines <- label_lines img rest ;;
      Ok (line :: lines)
  end.

(** What [save_labels] writes: the PNG (by its size), the label file and
    the registry file.  The manifest [data.yaml] is written too; no property
    here reads it. *)
Record Saved : Type := mkSaved {
  saved_image : QSize;
  saved_lines : list LabelLine;
  saved_mapping : dict
}.

(** [save_labels] (lines 174-220), on the path where the directory and the
    three files can be written; the file operations' failures are added in
    [save_labels_io] below.  [self.label.pixmap()] is the pixmap the label
    shows. *)
Definition save_labels (w : LabelingTool) : result (LabelingTool * option Saved) :=
  match image_path w with
  | None => Raise AttributeError
  | Some path =>
      if String.eqb path "" || (match bboxes (label w) with [] => true | _ => false end)
      then Ok (w, None)
      else
        match shown_pixmap (label w) with
        | None => Raise AttributeError
        | Some img =>
            lines <- label_lines img (bboxes (label w)) ;;
            Ok (with_save_button w false,
                Some (mkSaved img lines (class_to_id w)))
        end
  end.

(** ** The event loop *)

Inductive Event : Type :=
| LoadImage (path : string) (pixmap : QSize)
| Resize (sz : QSize)
| MousePress (left_button : bool) (x y : Z)
| MouseMove (x y : Z)
| MouseRelease (left_button : bool)
| ReturnPressed (text : string)
| SaveClicked.

Definition handle (ev : Event) (w : LabelingTool) : result LabelingTool :=
  match ev with
  | LoadImage path pixmap => load_image path pixmap w
  | Resize sz => l <- resizeEvent sz (label w) ;; Ok (with_label w l)
  | MousePress left_button x y => mousePressEvent left_button x y w
  | MouseMove x y => mouseMoveEvent x y w
  | MouseRelease left_button => mouseReleaseEvent left_button w
  | ReturnPressed text => add_class_id text w
  | SaveClicked => ' (w', _) <- save_labels w ;; Ok w'
  end.

Fixpoint run (evs : list Event) (w : LabelingTool) : result LabelingTool :=
  match evs with
  | [] => Ok w
  | ev :: rest => w' <- handle ev w ;; run rest w'
  end.

(** The states a session can be in: a start-up followed by handlers, each
    of which returned. *)
Inductive reachable : LabelingTool -> Prop :=
| reachable_init : forall persisted w,
    init persisted = Ok w -> reachable w
| reachable_step : forall w ev w',
    reachable w -> handle ev w = Ok w' -> reachable w'.

End Handlers.

(** ** The editor's phases

    The specification's state machine read off the widget: [Drawing] while
    the button is held, [AwaitingLabel] while a released box waits for its
    class, [Idle] otherwise. *)

Inductive Phase : Type := Idle | Drawing | AwaitingLabel.

Definition phase (w : LabelingTool) : Phase :=
  if drawing (label w) then Drawing
  else match current_bbox (label w) with
       | Some _ => AwaitingLabel
       | None => Idle
       end.

(** The numbers of a label line, each fraction in lowest terms. *)
Definition line_values (l : LabelLine) : Z * Q * Q * Q * Q :=
  (line_class l, this (x_center l), this (y_center l), this (width_norm l),
   this (height_norm l)).

(** The numbers of a committed box, each fraction in lowest terms. *)
Definition box_values (b : CommittedBox) : Q * Q * Q * Q * Z :=
  (this (bx b), this (by_ b), this (bw b), this (bh b), bclass b).

Definition pending_values (b : PendingBox) : Q * Q * Q * Q :=
  (this (px b), this (py b), this (pw b), this (ph b)).

(** The ids [n, n+1, ..., n+k-1]. *)
Definition ids_from (n : Z) (k : nat) : list Z :=
  map (fun i => n + Z.of_nat i) (seq 0 k).

(** A session on Qt 5: start-up, then the events in turn. *)
Definition session (persisted : option dict) (evs : list Event)
    : result LabelingTool :=
  w <- init persisted ;; run Qt5 evs w.

(** An 800 x 600 image shown at its own size, and boxes dragged over it. *)
Definition load_800x600 : Event := LoadImage "a.png" (mkSize 800 600).

Definition drag (x0 y0 x1 y1 : Z) : list Event :=
  [MousePress true x0 y0; MouseMove x1 y1; MouseRelease true].

(** Every committed box carries an id some registered name maps to, and a
    loaded image has a pixmap on show. *)
Definition renderable (w : LabelingTool) : Prop :=
  (forall b, In b (bboxes (label w)) ->
             exists name, In (name, bclass b) (class_to_id w)) /\
  (original_pixmap (label w) <> None -> shown_pixmap (label w) <> None).

(** ** The dataset manifest

    Lines 202-213 of [save_labels], reached once the label file is written:
    [sorted(self.class_to_id, key=lambda x: self.class_to_id[x])] and the
    class count [len(self.class_to_id)] that go into [data.yaml]. *)

(** Each name with its sort key [class_to_id[x]]. *)
Fixpoint keyed (d : dict) (names : list string) : result (list (string * Z)) :=
  match names with
  | [] => Ok []
  | x :: rest =>
      match dict_get x d with
      | Some k => ks <- keyed d rest ;; Ok ((x, k) :: ks)
      | None => Raise KeyError
      end
  end.

(** [sorted] is stable: an element goes before the first one whose key is
    not smaller, so equal keys keep their order. *)
Fixpoint insert_keyed (p : string * Z) (l : list (string * Z))
    : list (string * Z) :=
  match l with
  | [] => [p]
  | q :: t =>
      if snd p <=? snd q then p :: q :: t else q :: insert_keyed p t
  end.

Fixpoint py_sorted (l : list (string * Z)) : list (string * Z) :=
  match l with
  | [] => []
  | p :: t => insert_keyed p (py_sorted t)
  end.

Definition sorted_class_names (d : dict) : result (list string) :=
  ks <- keyed d (map fst d) ;;
  Ok (map fst (py_sorted ks)).

Record Manifest : Type := mkManifest {
  nc : Z;
  names : list string
}.

Definition data_yaml (w : LabelingTool) : result Manifest :=
  sorted <- sorted_class_names (class_to_id w) ;;
  Ok (mkManifest (Z.of_nat (List.length (class_to_id w))) sorted).

(** ** Saving with the file system

    [save_labels] above is the save whose file operations all succeed.  The
    handler also creates the results directory and opens three files for
    writing; each of these raises [OSError] when the file system refuses.
    [FileOps] is what the file system answers at one save. *)

Record FileOps : Type := mkFileOps {
  (** line 178-179: the directory exists or [os.makedirs] creates it *)
  results_dir_ok : bool;
  (** line 191: [open(label_file_path, 'w')] *)
  label_open_ok : bool;
  (** lines 198 and the end of the [with]: the writes and the close *)
  label_written_ok : bool;
  (** lines 204-213: [data.yaml] opened and written *)
  yaml_ok : bool;
  (** lines 219-220: the registry file opened and written *)
  mapping_ok : bool
}.


Definition file_op (ok : bool) : result unit :=
  if ok then Ok tt else Raise OSError.

(** [save_labels] (lines 174-220) with its file operations, in the order of
    the source.  [QPixmap.save] reports a failure by its return value, which
    the handler does not read; the divisions of the loop come after the
    label file is opened and before its writes reach the disk. *)
Definition save_labels_io (files : FileOps) (w : LabelingTool)
    : result (LabelingTool * option (Saved * Manifest)) :=
  match image_path w with
  | None => Raise AttributeError
  | Some path =>
      if String.eqb path "" || (match bboxes (label w) with [] => true | _ => false end)
      then Ok (w, None)
      else
        made <- file_op (results_dir_ok files) ;;
        match shown_pixmap (label w) with
        | None => Raise AttributeError
        | Some img =>
            opened <- file_op (label_open_ok files) ;;
            lines <- label_lines img (bboxes (label w)) ;;
            written <- file_op (label_written_ok files) ;;
            manifest <- data_yaml w ;;
            yaml <- file_op (yaml_ok files) ;;
            let w' := with_save_button w false in
            mapping <- file_op (mapping_ok files) ;;
            Ok (w', Some (mkSaved img lines (class_to_id w), manifest))
        end
  end.

(** ** Events as the widgets let them through

    The input field emits [returnPressed] and the save button [clicked] only
    while they are enabled; the other events reach their handlers as they
    come.  [files] is what the file system answers if the event is a save. *)





(** A file system that refuses nothing. *)
Definition all_files_ok : FileOps := mkFileOps true true true true true.





(** A registry whose ids are 0, 1, ..., n-1 in the order of registration,
    with distinct names and the counter at n. *)
Definition sequential_registry (d : dict) (n : Z) : Prop :=
  dict_values d = ids_from 0 (List.length d) /\
  n = Z.of_nat (List.length d) /\
  NoDup (map fst d).

(** Ids below the counter, no id twice. *)
Definition distinct_ids (d : dict) (n : Z) : Prop :=
  NoDup (dict_values d) /\ (forall v, In v (dict_values d) -> v < n).

(** Ascending order of id. *)
Definition by_id (p q : string * Z) : Prop := snd p <= snd q.

(** * Properties *)

(** ** The registry *)

Lemma dict_get_set_same (k : string) (v : Z) (d : dict) :
  dict_get k (dict_set k v d) = Some v.
Proof.
  induction d as [|[k' v'] t IH]; simpl.
  - now rewrite String.eqb_refl.
  - destruct (String.eqb k k') eqn:E; simpl.
    + now rewrite String.eqb_refl.
    + now rewrite E.
Qed.

Lemma dict_get_set_other (k k' : string) (v : Z) (d : dict) :
  k <> k' -> dict_get k' (dict_set k v d) = dict_get k' d.
Proof.
  intros Hne. induction d as [|[k0 v0] t IH]; simpl.
  - destruct (String.eqb k' k) eqn:E; [|reflexivity].
    apply String.eqb_eq in E. congruence.
  - destruct (String.eqb k k0) eqn:E; simpl.
    + apply String.eqb_eq in E. subst k0.
      destruct (String.eqb k' k) eqn:E'; [|reflexivity].
      apply String.eqb_eq in E'. congruence.
    + now rewrite IH.
Qed.

Lemma dict_get_In (k : string) (v : Z) (d : dict) :
  dict_get k d = Some v -> In (k, v) d.
Proof.
  induction d as [|[k' v'] t IH]; simpl; [discriminate|].
  destruct (String.eqb k k') eqn:E.
  - apply String.eqb_eq in E. intros [= ->]. left. now subst.
  - intros H. right. auto.
Qed.

Lemma dict_set_fresh (k : string) (v : Z) (d : dict) :
  dict_get k d = None -> dict_set k v d = d ++ [(k, v)].
Proof.
  induction d as [|[k' v'] t IH]; simpl; [reflexivity|].
  destruct (String.eqb k k'); [discriminate|].
  intros H. now rewrite IH.
Qed.

Lemma resolve_existing (name : string) (d : dict) (n id : Z) :
  dict_get name d = Some id -> resolve name d n = Ok (id, d, n).
Proof.
  intros H. unfold resolve, dict_contains. now rewrite H; simpl; rewrite H.
Qed.

Lemma resolve_fresh (name : string) (d : dict) (n : Z) :
  dict_get name d = None ->
  resolve name d n = Ok (n, dict_set name n d, n + 1).
Proof.
  intros H. unfold resolve, dict_contains. rewrite H; simpl.
  now rewrite dict_get_set_same.
Qed.

(** [resolve] always returns, with an id the registry now maps the name to;
    old entries stay. *)
Lemma resolve_total (name : string) (d : dict) (n : Z) :
  exists id d' n',
    resolve name d n = Ok (id, d', n') /\ dict_get name d' = Some id /\
    (forall k v, In (k, v) d -> In (k, v) d').
Proof.
  destruct (dict_get name d) as [id|] eqn:E.
  - exists id, d, n. rewrite (resolve_existing _ _ _ _ E). auto.
  - exists n, (dict_set name n d), (n + 1).
    rewrite (resolve_fresh _ _ _ E), dict_get_set_same.
    repeat split. intros k v H. rewrite (dict_set_fresh _ _ _ E).
    apply in_or_app. now left.
Qed.

Lemma ids_from_cons (n : Z) (k : nat) :
  ids_from n (S k) = n :: ids_from (n + 1) k.
Proof.
  unfold ids_from. simpl. rewrite Z.add_0_r. f_equal.
  rewrite <- seq_shift, map_map. apply map_ext. intros i. lia.
Qed.

Lemma ids_from_lower (n : Z) (k : nat) (x : Z) :
  In x (ids_from n k) -> n <= x.
Proof.
  unfold ids_from. rewrite in_map_iff. intros [i [<- _]]. lia.
Qed.

Lemma ids_from_NoDup (n : Z) (k : nat) : NoDup (ids_from n k).
Proof.
  revert n. induction k as [|k IH]; intros n.
  - constructor.
  - rewrite ids_from_cons. constructor; [|apply IH].
    intros H. apply ids_from_lower in H. lia.
Qed.

Lemma resolve_all_fresh (names : list string) :
  forall (d : dict) (n : Z),
    NoDup names ->
    (forall name, In name names -> dict_get name d = None) ->
    exists d',
      resolve_all names d n
      = Ok (ids_from n (List.length names), d', n + Z.of_nat (List.length names)).
Proof.
  induction names as [|name rest IH]; intros d n Hnd Hfresh.
  - exists d. simpl. now rewrite Z.add_0_r.
  - inversion Hnd as [|? ? Hnotin Hnd']; subst.
    cbn [resolve_all]. rewrite resolve_fresh by (apply Hfresh; now left).
    cbn [bind].
    destruct (IH (dict_set name n d) (n + 1) Hnd') as [d' Hd'].
    + intros k Hk. rewrite dict_get_set_other.
      * apply Hfresh. now right.
      * intros ->. contradiction.
    + exists d'. rewrite Hd'. cbn [bind List.length]. rewrite ids_from_cons.
      replace (n + Z.of_nat (S (List.length rest)))
        with (n + 1 + Z.of_nat (List.length rest)) by lia.
      reflexivity.
Qed.

(** C6: [resolve] returns the id of a name that is registered and leaves the
    registry as it is; it gives a new name the counter's value, inserts it
    and adds one to the counter; it always returns, and resolving the same
    name again returns the same id; resolving distinct new names in turn
    yields the consecutive, pairwise different ids that start at the
    counter's initial value. *)
Theorem resolve_spec (d : dict) (n : Z) :
  (forall name id,
      dict_get name d = Some id -> resolve name d n = Ok (id, d, n)) /\
  (forall name,
      dict_get name d = None ->
      resolve name d n = Ok (n, dict_set name n d, n + 1) /\
      dict_get name (dict_set name n d) = Some n) /\
  (forall name, exists id d' n',
      resolve name d n = Ok (id, d', n') /\
      resolve name d' n' = Ok (id, d', n')) /\
  (forall names,
      NoDup names ->
      (forall name, In name names -> dict_get name d = None) ->
      exists d',
        resolve_all names d n
        = Ok (ids_from n (List.length names), d', n + Z.of_nat (List.length names)) /\
        NoDup (ids_from n (List.length names)) /\
        nth_error (ids_from n (List.length names)) 0
        = match names with [] => None | _ => Some n end).
Proof.
  repeat split.
  - intros name id. apply resolve_existing.
  - now apply resolve_fresh.
  - apply dict_get_set_same.
  - intros name. destruct (resolve_total name d n) as (id & d' & n' & H & G & _).
    exists id, d', n'. split; [exact H|]. now apply resolve_existing.
  - intros names Hnd Hfresh.
    destruct (resolve_all_fresh names d n Hnd Hfresh) as [d' H].
    exists d'. split; [exact H|]. split; [apply ids_from_NoDup|].
    destruct names; [reflexivity|]. cbn [List.length]. now rewrite ids_from_cons.
Qed.

Lemma resolve_spec_witness :
  resolve "cat" [("cat"%string, 0)] 1 = Ok (0, [("cat"%string, 0)], 1) /\
  (exists d',
     resolve_all ["dog"%string; "bird"%string] [("cat"%string, 0)] 1
     = Ok ([1; 2], d', 3)).
Proof.
  destruct (resolve_spec [("cat"%string, 0)] 1) as (Hold & _ & _ & Hmany).
  split.
  - apply Hold. reflexivity.
  - destruct (Hmany ["dog"%string; "bird"%string]) as (d' & H & _).
    + repeat constructor; simpl; intuition discriminate.
    + simpl. intros name [<-|[<-|[]]]; reflexivity.
    + exists d'. exact H.
Defined.

(** ** Start-up *)

Lemma fold_max_bounds (t : list Z) :
  forall x : Z,
    (fold_left Z.max t x = x \/ In (fold_left Z.max t x) t) /\
    x <= fold_left Z.max t x /\
    (forall y, In y t -> y <= fold_left Z.max t x).
Proof.
  induction t as [|a t IH]; intros x; simpl.
  - repeat split; [now left | lia | contradiction].
  - destruct (IH (Z.max x a)) as (Hin & Hle & Hall). repeat split.
    + destruct Hin as [Heq|Hin]; [|now right; right].
      rewrite Heq. destruct (Z.max_spec x a) as [[_ ->]|[_ ->]]; auto.
    + lia.
    + intros y [<-|Hy]; [lia|auto].
Qed.

Lemma py_max_spec (xs : list Z) :
  xs <> [] ->
  exists m, py_max xs = Ok m /\ In m xs /\ (forall y, In y xs -> y <= m).
Proof.
  destruct xs as [|x t]; [congruence|]. intros _.
  exists (fold_left Z.max t x).
  destruct (fold_max_bounds t x) as (Hin & Hle & Hall). simpl.
  repeat split.
  - destruct Hin as [->|Hin]; auto.
  - intros y [<-|Hy]; auto.
Qed.

(** X7: Start-up from a registry file that holds at least one class: the
    registry is the file's mapping, the counter is one more than its largest
    id, and a name the file does not hold then gets that id, which no loaded
    name has. *)
Lemma init_nonempty_mapping (mapping : dict) :
  mapping <> [] ->
  exists m w,
    py_max (dict_values mapping) = Ok m /\
    init (Some mapping) = Ok w /\
    class_to_id w = mapping /\
    current_class_id w = m + 1 /\
    (forall name,
        dict_get name mapping = None ->
        resolve name (class_to_id w) (current_class_id w)
        = Ok (m + 1, dict_set name (m + 1) mapping, m + 2)) /\
    ~ In (m + 1) (dict_values mapping).
Proof.
  intros Hne.
  destruct (py_max_spec (dict_values mapping)) as (m & Hm & _ & Hmax).
  { destruct mapping; [congruence|discriminate]. }
  exists m. eexists. split; [exact Hm|]. unfold init. rewrite Hm. cbn [bind].
  split; [reflexivity|]. cbn. repeat split.
  - intros name Hfresh. rewrite (resolve_fresh _ _ _ Hfresh).
    now replace (m + 1 + 1) with (m + 2) by lia.
  - intros Hin. apply Hmax in Hin. lia.
Qed.

(** Start-up without a registry file: an empty registry and the counter at 0. *)
Lemma init_no_file :
  exists w, init None = Ok w /\ class_to_id w = [] /\ current_class_id w = 0.
Proof. eexists. repeat split. Qed.

(** C5: start-up from a registry file that holds the empty mapping does not
    set the counter to 0: [max] of no ids raises [ValueError], and no tool
    state comes out of [__init__]. *)
Theorem init_empty_mapping_raises : init (Some []) = Raise ValueError.
Proof. reflexivity. Qed.

(** ** Commit *)

Lemma add_class_id_accepts (name : string) (w : LabelingTool) (b : PendingBox) :
  current_bbox (label w) = Some b ->
  name <> ""%string ->
  exists class_id d n,
    resolve name (class_to_id w) (current_class_id w) = Ok (class_id, d, n) /\
    dict_get name d = Some class_id /\
    (forall k v, In (k, v) (class_to_id w) -> In (k, v) d) /\
    add_class_id name w
    = Ok (with_save_button
            (with_label (with_registry w d n)
               (with_current_bbox
                  (with_bboxes (label w)
                     (bboxes (label w) ++ [append_class b class_id]))
                  None))
            true).
Proof.
  intros Hb Hname.
  destruct (resolve_total name (class_to_id w) (current_class_id w))
    as (id & d & n & Hres & Hget & Hmono).
  exists id, d, n. repeat split; auto.
  unfold add_class_id. rewrite Hb.
  apply String.eqb_neq in Hname. rewrite Hname. cbn [negb].
  rewrite Hres. reflexivity.
Qed.

(** C10: with no pending box, a commit changes nothing, whatever the class
    name: no box is appended, the name is not registered and the counter
    stays. *)
Theorem commit_without_pending_box (name : string) (w : LabelingTool) :
  current_bbox (label w) = None -> add_class_id name w = Ok w.
Proof.
  intros H. unfold add_class_id. now rewrite H.
Qed.

Lemma commit_without_pending_box_witness :
  add_class_id "cat" (mkTool [] 0 (new_label (mkSize 800 600)) false false None)
  = Ok (mkTool [] 0 (new_label (mkSize 800 600)) false false None).
Proof.
  apply (commit_without_pending_box "cat"). reflexivity.
Defined.

(** C2, as the code has it: in [AwaitingLabel], a commit with an empty class
    name is rejected and leaves the whole state as it is (committed boxes,
    pending box, registry, counter, phase); a commit with a non-empty name is
    accepted whatever the size of the pending box (also of zero width or
    height): one box is appended, the pending box is cleared and the editor
    is [Idle]. *)
Theorem commit_guard (w : LabelingTool) :
  phase w = AwaitingLabel ->
  add_class_id "" w = Ok w /\
  (forall name, name <> ""%string ->
     exists w',
       add_class_id name w = Ok w' /\
       List.length (bboxes (label w')) = S (List.length (bboxes (label w))) /\
       current_bbox (label w') = None /\
       phase w' = Idle).
Proof.
  unfold phase. intros Hphase.
  destruct (drawing (label w)) eqn:Hd; [discriminate|].
  destruct (current_bbox (label w)) as [b|] eqn:Hb; [|discriminate].
  split.
  - unfold add_class_id. now rewrite Hb.
  - intros name Hname.
    destruct (add_class_id_accepts name w b Hb Hname)
      as (id & d & n & _ & _ & _ & Hadd).
    eexists. split; [exact Hadd|]. cbn. rewrite Hd.
    repeat split. rewrite length_app. simpl. lia.
Qed.

Lemma commit_guard_witness :
  exists w,
    session None (load_800x600 :: drag 100 100 300 400) = Ok w /\
    phase w = AwaitingLabel /\
    add_class_id "" w = Ok w.
Proof.
  eexists. split; [vm_compute; reflexivity|]. split; [reflexivity|].
  apply commit_guard. reflexivity.
Defined.

(** C2 fails as stated: a click without a drag leaves a pending box of zero
    width and zero height, and committing it as "cat" is accepted. *)
Lemma commit_zero_size_box_accepted :
  exists w w',
    session None [load_800x600; MousePress true 100 100; MouseRelease true]
    = Ok w /\
    phase w = AwaitingLabel /\
    option_map pending_values (current_bbox (label w))
    = Some (100 # 1, 100 # 1, 0 # 1, 0 # 1) /\
    add_class_id "cat" w = Ok w' /\
    map box_values (bboxes (label w)) = [] /\
    map box_values (bboxes (label w')) = [(100 # 1, 100 # 1, 0 # 1, 0 # 1, 0)] /\
    current_bbox (label w') = None /\
    class_to_id w' = [("cat"%string, 0)] /\
    phase w' = Idle.
Proof.
  eexists. eexists. split; [vm_compute; reflexivity|].
  split; [reflexivity|]. split; [reflexivity|].
  split; [cbv; reflexivity|]. repeat split.
Qed.

(** C3 fails as stated: a box dragged from (300,400) up and left to
    (100,100) is committed with width -200 and height -300, its origin still
    the press point. *)
Lemma commit_keeps_negative_size :
  exists w,
    session None (load_800x600 :: drag 300 400 100 100
                  ++ [ReturnPressed "cat"]) = Ok w /\
    map box_values (bboxes (label w))
    = [(300 # 1, 400 # 1, -200 # 1, -300 # 1, 0)] /\
    Forall (fun b => (bw b < Z2Qc 0)%Qc /\ (bh b < Z2Qc 0)%Qc)
           (bboxes (label w)).
Proof.
  eexists. split; [vm_compute; reflexivity|]. split; [reflexivity|].
  repeat constructor.
Qed.

(** ** Loading an image *)

Lemma bind_Ok {A B : Type} (r : result A) (k : A -> result B) (b : B) :
  bind r k = Ok b -> exists a, r = Ok a /\ k a = Ok b.
Proof.
  destruct r as [a|e]; simpl; [|discriminate]. intros H. now exists a.
Qed.

Ltac bind_inv H :=
  let a := fresh "a" in
  let Ha := fresh "Ha" in
  apply bind_Ok in H; destruct H as (a & Ha & H).

(** What [update_scaled_pixmap] leaves alone, and what it sets. *)
Lemma update_scaled_pixmap_frame (tk : Toolkit) (l l' : ImageLabel) :
  update_scaled_pixmap tk l = Ok l' ->
  bboxes l' = bboxes l /\
  current_bbox l' = current_bbox l /\
  drawing l' = drawing l /\
  original_pixmap l' = original_pixmap l /\
  (original_pixmap l' <> None -> shown_pixmap l' <> None).
Proof.
  unfold update_scaled_pixmap. intros H.
  destruct (original_pixmap l) as [orig|] eqn:Ho.
  - bind_inv H. bind_inv H. injection H as <-. cbn.
    repeat split; auto; discriminate.
  - injection H as <-. repeat split; auto; rewrite Ho; congruence.
Qed.

(** X4: A load that returns empties the committed list and keeps the rest of the
    editor: the pending box and the [drawing] flag are those from before, as
    are the registry and its counter. *)
Lemma load_image_effect (tk : Toolkit) (path : string) (pixmap : QSize)
    (w w' : LabelingTool) :
  path <> ""%string ->
  load_image tk path pixmap w = Ok w' ->
  bboxes (label w') = [] /\
  current_bbox (label w') = current_bbox (label w) /\
  drawing (label w') = drawing (label w) /\
  class_to_id w' = class_to_id w /\
  current_class_id w' = current_class_id w /\
  phase w' = phase w.
Proof.
  intros Hpath H. unfold load_image in H.
  apply String.eqb_neq in Hpath. rewrite Hpath in H.
  bind_inv H. injection H as <-.
  apply update_scaled_pixmap_frame in Ha. cbn in Ha.
  destruct Ha as (_ & Hc & Hd & _). unfold phase. cbn.
  rewrite Hc, Hd. repeat split.
Qed.

(** C4: loading a new image while a box waits for its class empties the
    committed list but keeps the pending box: the editor is still in
    [AwaitingLabel] with the box drawn on the previous image, and a commit
    then puts that box on the new image's list. *)
Theorem load_image_keeps_pending_box :
  exists w w' w'',
    session None (load_800x600 :: drag 100 100 300 400) = Ok w /\
    phase w = AwaitingLabel /\
    load_image Qt5 "b.png" (mkSize 640 480) w = Ok w' /\
    bboxes (label w') = [] /\
    phase w' = AwaitingLabel /\
    option_map pending_values (current_bbox (label w'))
    = Some (100 # 1, 100 # 1, 200 # 1, 300 # 1) /\
    add_class_id "dog" w' = Ok w'' /\
    map box_values (bboxes (label w''))
    = [(100 # 1, 100 # 1, 200 # 1, 300 # 1, 0)].
Proof.
  eexists. eexists. eexists. split; [vm_compute; reflexivity|].
  split; [reflexivity|]. split; [vm_compute; reflexivity|].
  split; [reflexivity|]. split; [reflexivity|]. split; [reflexivity|].
  split; [vm_compute; reflexivity|]. reflexivity.
Qed.

(** ** Rendering the committed boxes *)

Lemma reverse_lookup_found (d : dict) (name : string) (id : Z) :
  In (name, id) d ->
  exists first, reverse_lookup d id = Ok first /\ In (first, id) d.
Proof.
  intros Hin. unfold reverse_lookup.
  destruct (filter (fun item => snd item =? id) d) as [|[k v] t] eqn:E.
  - assert (Hf : In (name, id) (filter (fun item => snd item =? id) d)).
    { apply filter_In. split; [exact Hin|]. apply Z.eqb_refl. }
    rewrite E in Hf. contradiction.
  - exists k. split; [reflexivity|].
    assert (Hf : In (k, v) (filter (fun item => snd item =? id) d))
      by (rewrite E; now left).
    apply filter_In in Hf. destruct Hf as [Hd Hv].
    apply Z.eqb_eq in Hv. simpl in Hv. now subst v.
Qed.

Lemma paint_bboxes_returns (registry : dict) (l : ImageLabel)
    (bs : list CommittedBox) :
  (forall b, In b bs -> exists name, In (name, bclass b) registry) ->
  exists cmds, paint_bboxes registry l bs = Ok cmds.
Proof.
  induction bs as [|b rest IH]; intros H.
  - now exists [].
  - destruct (H b (or_introl eq_refl)) as [name Hname].
    destruct (reverse_lookup_found _ _ _ Hname) as (first & Hfirst & _).
    destruct IH as [cmds Hcmds]; [intros b' Hb'; apply H; now right|].
    cbn [paint_bboxes]. destruct (to_display_space l (bx b, by_ b)).
    rewrite Hfirst, Hcmds. cbn [bind]. eauto.
Qed.

Lemma renderable_init (persisted : option dict) (w : LabelingTool) :
  init persisted = Ok w -> renderable w.
Proof.
  unfold init. intros H. bind_inv H. destruct a as [d n].
  injection H as <-. split; cbn; [contradiction|congruence].
Qed.

Lemma renderable_add_class_id (name : string) (w w' : LabelingTool) :
  renderable w -> add_class_id name w = Ok w' -> renderable w'.
Proof.
  intros [Hids Hshown] H.
  destruct (current_bbox (label w)) as [b|] eqn:Hb.
  - destruct (String.eqb name "") eqn:Hname.
    + unfold add_class_id in H. rewrite Hb, Hname in H.
      injection H as <-. now split.
    + apply String.eqb_neq in Hname.
      destruct (add_class_id_accepts name w b Hb Hname)
        as (id & d & n & _ & Hget & Hmono & Hadd).
      rewrite Hadd in H. injection H as <-. split; cbn; [|exact Hshown].
      intros b' Hb'. apply in_app_or in Hb'. destruct Hb' as [Hold|[<-|[]]].
      * destruct (Hids b' Hold) as [k Hk]. exists k. auto.
      * exists name. cbn. now apply dict_get_In.
  - unfold add_class_id in H. rewrite Hb in H.
    injection H as <-. now split.
Qed.

Lemma renderable_handle (tk : Toolkit) (ev : Event) (w w' : LabelingTool) :
  renderable w -> handle tk ev w = Ok w' -> renderable w'.
Proof.
  intros Hr H. pose proof Hr as [Hids Hshown].
  destruct ev as [path pixmap|sz|lb x y|x y|lb|text|]; cbn [handle] in H.
  - unfold load_image in H. destruct (String.eqb path "").
    + injection H as <-. exact Hr.
    + bind_inv H. injection H as <-.
      apply update_scaled_pixmap_frame in Ha. destruct Ha as (_ & _ & _ & _ & Hs).
      split; cbn; [contradiction|exact Hs].
  - bind_inv H. injection H as <-.
    apply update_scaled_pixmap_frame in Ha. cbn in Ha.
    destruct Ha as (Hb & _ & _ & _ & Hs).
    split; cbn; [rewrite Hb; exact Hids|exact Hs].
  - unfold mousePressEvent in H.
    destruct lb; [|injection H as <-; exact Hr].
    destruct (original_pixmap (label w)) eqn:Ho; [|injection H as <-; exact Hr].
    bind_inv H. destruct a as [sx sy]. injection H as <-.
    split; cbn; [exact Hids|]. intros _. apply Hshown. discriminate.
  - unfold mouseMoveEvent in H.
    destruct (drawing (label w)); [|injection H as <-; exact Hr].
    bind_inv H. destruct a as [end_x end_y].
    destruct (start_xy (label w)) as [[start_x start_y]|]; [|discriminate].
    destruct (current_bbox (label w)); [|discriminate].
    injection H as <-. now split.
  - unfold mouseReleaseEvent in H.
    destruct (lb && drawing (label w)); injection H as <-; now split.
  - eapply renderable_add_class_id; eauto.
  - bind_inv H. destruct a as [w1 saved]. injection H as <-.
    unfold save_labels in Ha.
    destruct (image_path w); [|discriminate].
    destruct (_ || _); [injection Ha as <- _; exact Hr|].
    destruct (shown_pixmap (label w)); [|discriminate].
    bind_inv Ha. injection Ha as <- _. exact Hr.
Qed.

Lemma reachable_renderable (tk : Toolkit) (w : LabelingTool) :
  reachable tk w -> renderable w.
Proof.
  induction 1 as [persisted w Hinit|w ev w' _ IH Hstep].
  - eapply renderable_init; eauto.
  - eapply renderable_handle; eauto.
Qed.

Lemma run_reachable (tk : Toolkit) (evs : list Event) :
  forall w w', reachable tk w -> run tk evs w = Ok w' -> reachable tk w'.
Proof.
  induction evs as [|ev rest IH]; intros w w' Hw H; cbn [run] in H.
  - now injection H as <-.
  - bind_inv H. eapply IH; [|exact H]. eapply reachable_step; eauto.
Qed.

Lemma session_reachable (persisted : option dict) (evs : list Event)
    (w : LabelingTool) :
  session persisted evs = Ok w -> reachable Qt5 w.
Proof.
  unfold session. intros H. bind_inv H.
  eapply run_reachable; [|exact H]. eapply reachable_init; eauto.
Qed.

(** C9: in every state a session reaches, each committed box's class id has
    a name in the registry, so the reverse lookup of [paintEvent] finds a
    first match for it, and [paintEvent] returns. *)
Theorem paint_never_faults (tk : Toolkit) (w : LabelingTool) :
  reachable tk w ->
  (forall b, In b (bboxes (label w)) ->
     exists name,
       reverse_lookup (class_to_id w) (bclass b) = Ok name /\
       In (name, bclass b) (class_to_id w)) /\
  (exists cmds, paintEvent w = Ok cmds).
Proof.
  intros Hreach. apply reachable_renderable in Hreach.
  destruct Hreach as [Hids Hshown]. split.
  - intros b Hb. destruct (Hids b Hb) as [name Hname].
    eapply reverse_lookup_found; eauto.
  - unfold paintEvent.
    destruct (original_pixmap (label w)) eqn:Ho; [|now exists []].
    destruct (shown_pixmap (label w)) eqn:Hs;
      [|exfalso; apply Hshown; congruence].
    destruct (paint_bboxes_returns (class_to_id w) (label w) _ Hids)
      as [cmds Hcmds].
    rewrite Hcmds. cbn [bind]. eauto.
Qed.

Lemma paint_never_faults_witness :
  exists w cmds,
    session None (load_800x600 :: drag 100 100 300 400
                  ++ [ReturnPressed "cat"]) = Ok w /\
    List.length (bboxes (label w)) = 1%nat /\
    paintEvent w = Ok cmds.
Proof.
  eexists.
  assert (H : session None (load_800x600 :: drag 100 100 300 400
                            ++ [ReturnPressed "cat"]) = Ok _)
    by (vm_compute; reflexivity).
  destruct (paint_never_faults Qt5 _ (session_reachable _ _ _ H))
    as [_ [cmds Hcmds]].
  exists cmds. split; [exact H|]. split; [reflexivity|exact Hcmds].
Defined.

(** ** The display transform *)

Lemma Z2Qc_inj (a b : Z) : Z2Qc a = Z2Qc b -> a = b.
Proof.
  unfold Z2Qc. intros H. apply Q2Qc_eq_iff in H.
  apply inject_Z_injective. exact H.
Qed.

Lemma Z2Qc_pos (z : Z) : 0 < z -> (Z2Qc 0 < Z2Qc z)%Qc.
Proof.
  intros H. unfold Qclt, Z2Qc. cbn [this Q2Qc].
  rewrite !Qred_correct. now rewrite <- Zlt_Qlt.
Qed.

Lemma Z2Qc_sub (a b : Z) : Z2Qc (a - b) = (Z2Qc a - Z2Qc b)%Qc.
Proof.
  apply Qc_is_canon. unfold Z2Qc, Qcminus, Qcplus, Qcopp. cbn [this Q2Qc].
  rewrite !Qred_correct. unfold Z.sub.
  now rewrite inject_Z_plus, inject_Z_opp.
Qed.

Lemma Qcdiv_pos (a b : Qc) :
  (Z2Qc 0 < a)%Qc -> (Z2Qc 0 < b)%Qc -> (Z2Qc 0 < a / b)%Qc.
Proof.
  unfold Qclt, Qcdiv, Qcmult, Qcinv, Z2Qc. cbn [this Q2Qc].
  rewrite !Qred_correct. intros Ha Hb.
  apply Qmult_lt_0_compat; [exact Ha|]. now apply Qinv_lt_0_compat.
Qed.

Lemma Qc_pos_nonzero (a : Qc) : (Z2Qc 0 < a)%Qc -> a <> Z2Qc 0.
Proof.
  intros H E. apply Qclt_not_eq in H. congruence.
Qed.

Lemma py_div_nonzero (a b : Qc) :
  b <> Z2Qc 0 -> py_div a b = Ok (a / b)%Qc.
Proof.
  intros H. unfold py_div. destruct (Qc_eq_dec b (Z2Qc 0)); congruence.
Qed.

(** [py_min] is the minimum: one of its arguments, and below both. *)
Lemma py_min_spec (a b : Qc) :
  (py_min a b = a \/ py_min a b = b) /\
  (py_min a b <= a)%Qc /\ (py_min a b <= b)%Qc.
Proof.
  unfold py_min. destruct (b ?= a)%Qc eqn:E.
  - apply Qceq_alt in E. subst. repeat split; auto using Qcle_refl.
  - apply Qclt_alt in E. repeat split; auto using Qcle_refl, Qclt_le_weak.
  - apply Qcgt_alt in E. repeat split; auto using Qcle_refl, Qclt_le_weak.
Qed.

Lemma py_min_pos (a b : Qc) :
  (Z2Qc 0 < a)%Qc -> (Z2Qc 0 < b)%Qc -> (Z2Qc 0 < py_min a b)%Qc.
Proof.
  intros Ha Hb. destruct (py_min_spec a b) as [[->| ->] _]; assumption.
Qed.

(** With an image and a viewport of positive dimensions,
    [update_scaled_pixmap] returns; this is what it sets. *)
Lemma update_scaled_pixmap_positive (tk : Toolkit) (l : ImageLabel)
    (native : QSize) :
  original_pixmap l = Some native ->
  0 < width native -> 0 < height native ->
  0 < width (label_size l) -> 0 < height (label_size l) ->
  let scaled := pixmap_scaled tk native (label_size l) in
  let scale :=
    py_min (Z2Qc (width (label_size l)) / Z2Qc (width native))%Qc
           (Z2Qc (height (label_size l)) / Z2Qc (height native))%Qc in
  (Z2Qc 0 < scale)%Qc /\
  update_scaled_pixmap tk l
  = Ok (with_transform l scale
          ((Z2Qc (width (label_size l) - width scaled) / Z2Qc 2)%Qc,
           (Z2Qc (height (label_size l) - height scaled) / Z2Qc 2)%Qc)
          scaled).
Proof.
  intros Ho Hnw Hnh Hvw Hvh scaled scale. split.
  - apply py_min_pos; apply Qcdiv_pos; now apply Z2Qc_pos.
  - unfold update_scaled_pixmap. rewrite Ho.
    rewrite !py_div_nonzero
      by (apply Qc_pos_nonzero; now apply Z2Qc_pos).
    reflexivity.
Qed.

Lemma roundtrip_coordinate (x s o : Qc) :
  s <> Z2Qc 0 -> ((x * s + o - o) / s)%Qc = x.
Proof.
  intros Hs. change (Z2Qc 0) with 0%Qc in Hs. field. exact Hs.
Qed.

Lemma roundtrip_back (p s o : Qc) :
  s <> Z2Qc 0 -> ((p - o) / s * s + o)%Qc = p.
Proof.
  intros Hs. change (Z2Qc 0) with 0%Qc in Hs. field. exact Hs.
Qed.

(** C7: for a native size and a viewport of positive dimensions, with the
    transform [update_scaled_pixmap] computes from them, mapping a point of
    image space to display space and back returns the point, and so does
    mapping a point of display space to image space and back (exactly, in
    rational arithmetic). *)
Theorem transform_roundtrip (tk : Toolkit) (l : ImageLabel) (native : QSize) :
  original_pixmap l = Some native ->
  0 < width native -> 0 < height native ->
  0 < width (label_size l) -> 0 < height (label_size l) ->
  exists l',
    update_scaled_pixmap tk l = Ok l' /\
    (forall p : Qc * Qc, to_image_space l' (to_display_space l' p) = Ok p) /\
    (forall p : Qc * Qc, exists q,
        to_image_space l' p = Ok q /\ to_display_space l' q = p).
Proof.
  intros Ho Hnw Hnh Hvw Hvh.
  destruct (update_scaled_pixmap_positive tk l native Ho Hnw Hnh Hvw Hvh)
    as [Hpos Hupd].
  apply Qc_pos_nonzero in Hpos.
  eexists. split; [exact Hupd|]. split; intros [x y].
  - unfold to_image_space, to_display_space. cbn.
    rewrite !py_div_nonzero by exact Hpos. cbn [bind].
    now rewrite !roundtrip_coordinate by exact Hpos.
  - unfold to_image_space, to_display_space. cbn.
    rewrite !py_div_nonzero by exact Hpos. cbn [bind].
    eexists. split; [reflexivity|]. cbn.
    now rewrite !roundtrip_back by exact Hpos.
Qed.

Lemma transform_roundtrip_witness :
  exists l',
    update_scaled_pixmap Qt5
      (with_original_pixmap (new_label (mkSize 800 600)) (mkSize 1600 1200))
    = Ok l' /\
    to_image_space l' (to_display_space l' (Z2Qc 200, Z2Qc 300))
    = Ok (Z2Qc 200, Z2Qc 300).
Proof.
  destruct (transform_roundtrip Qt5
              (with_original_pixmap (new_label (mkSize 800 600))
                 (mkSize 1600 1200))
              (mkSize 1600 1200) eq_refl eq_refl eq_refl eq_refl eq_refl)
    as (l' & Hupd & Hround & _).
  exists l'. split; [exact Hupd|apply Hround].
Defined.

(** C8, as the code has it: for a native size and a viewport of positive
    dimensions, [update_scaled_pixmap] returns with the scale factor
    min(viewportW/nativeW, viewportH/nativeH) and shows the pixmap the
    toolkit scaled; the offsets centre that pixmap, whose sides are whole
    pixels: offsetX = (viewportW - scaledW)/2 and
    offsetY = (viewportH - scaledH)/2.  An offset is the one computed from
    native size times scale factor when the scaled side is exactly that
    product. *)
Theorem display_transform (tk : Toolkit) (l : ImageLabel) (native : QSize) :
  original_pixmap l = Some native ->
  0 < width native -> 0 < height native ->
  0 < width (label_size l) -> 0 < height (label_size l) ->
  let viewport := label_size l in
  let scaled := pixmap_scaled tk native viewport in
  let ratio_w := (Z2Qc (width viewport) / Z2Qc (width native))%Qc in
  let ratio_h := (Z2Qc (height viewport) / Z2Qc (height native))%Qc in
  exists l',
    update_scaled_pixmap tk l = Ok l' /\
    scale_factor l' = py_min ratio_w ratio_h /\
    (scale_factor l' = ratio_w \/ scale_factor l' = ratio_h) /\
    (scale_factor l' <= ratio_w)%Qc /\ (scale_factor l' <= ratio_h)%Qc /\
    shown_pixmap l' = Some scaled /\
    image_offset l'
    = (((Z2Qc (width viewport) - Z2Qc (width scaled)) / Z2Qc 2)%Qc,
       ((Z2Qc (height viewport) - Z2Qc (height scaled)) / Z2Qc 2)%Qc) /\
    (Z2Qc (width scaled) = (Z2Qc (width native) * scale_factor l')%Qc ->
     fst (image_offset l')
     = ((Z2Qc (width viewport) - Z2Qc (width native) * scale_factor l')
        / Z2Qc 2)%Qc) /\
    (Z2Qc (height scaled) = (Z2Qc (height native) * scale_factor l')%Qc ->
     snd (image_offset l')
     = ((Z2Qc (height viewport) - Z2Qc (height native) * scale_factor l')
        / Z2Qc 2)%Qc).
Proof.
  intros Ho Hnw Hnh Hvw Hvh viewport scaled ratio_w ratio_h.
  destruct (update_scaled_pixmap_positive tk l native Ho Hnw Hnh Hvw Hvh)
    as [_ Hupd].
  destruct (py_min_spec ratio_w ratio_h) as (Hone & Hle_w & Hle_h).
  eexists. split; [exact Hupd|]. cbn.
  fold viewport scaled ratio_w ratio_h. rewrite !Z2Qc_sub.
  repeat split; auto.
  - now intros ->.
  - now intros ->.
Qed.

Lemma display_transform_witness :
  exists l',
    update_scaled_pixmap Qt5
      (with_original_pixmap (new_label (mkSize 800 600)) (mkSize 1600 1200))
    = Ok l' /\
    this (scale_factor l') = 1 # 2 /\
    shown_pixmap l' = Some (mkSize 800 600) /\
    this (fst (image_offset l')) = 0 # 1 /\
    this (snd (image_offset l')) = 0 # 1.
Proof.
  destruct (display_transform Qt5
              (with_original_pixmap (new_label (mkSize 800 600))
                 (mkSize 1600 1200))
              (mkSize 1600 1200) eq_refl eq_refl eq_refl eq_refl eq_refl)
    as (l' & Hupd & Hscale & _ & _ & _ & Hshown & Hoff & _).
  exists l'. split; [exact Hupd|]. rewrite Hscale, Hoff.
  split; [reflexivity|]. split; [exact Hshown|]. split; reflexivity.
Defined.

(** C8 fails as stated: a 3 x 2 image in a 10 x 5 viewport has scale factor
    5/2 and is shown 7 pixels wide, so offsetX is (10 - 7)/2 = 3/2 and not
    (10 - 3 * 5/2)/2 = 5/4. *)
Lemma offset_centres_the_scaled_pixmap :
  exists w,
    session None [Resize (mkSize 10 5); LoadImage "a.png" (mkSize 3 2)]
    = Ok w /\
    original_pixmap (label w) = Some (mkSize 3 2) /\
    label_size (label w) = mkSize 10 5 /\
    shown_pixmap (label w) = Some (mkSize 7 5) /\
    this (scale_factor (label w)) = 5 # 2 /\
    this (fst (image_offset (label w))) = 3 # 2 /\
    this ((Z2Qc 10 - Z2Qc 3 * scale_factor (label w)) / Z2Qc 2)%Qc = 5 # 4.
Proof.
  eexists. split; [vm_compute; reflexivity|]. repeat split.
Qed.

(** The same image and viewport under any toolkit: the scaled pixmap is a
    whole number of pixels wide, 3 * 5/2 is not, and offsetX differs from
    (10 - 3 * 5/2)/2 whatever the toolkit's rounding. *)
Lemma offset_differs_for_any_toolkit (tk : Toolkit) (l l' : ImageLabel) :
  original_pixmap l = Some (mkSize 3 2) ->
  label_size l = mkSize 10 5 ->
  update_scaled_pixmap tk l = Ok l' ->
  fst (image_offset l')
  <> ((Z2Qc 10 - Z2Qc 3 * scale_factor l') / Z2Qc 2)%Qc.
Proof.
  intros Ho Hsz Hupd.
  assert (Hl' : exists z : Z,
             fst (image_offset l') = (Z2Qc z / Z2Qc 2)%Qc /\
             scale_factor l' = py_min (Z2Qc 10 / Z2Qc 3)%Qc (Z2Qc 5 / Z2Qc 2)%Qc).
  { assert (Hpos := update_scaled_pixmap_positive tk l (mkSize 3 2) Ho).
    rewrite Hsz in Hpos.
    destruct (Hpos eq_refl eq_refl eq_refl eq_refl) as [_ H].
    rewrite Hupd in H. injection H as ->. eexists. split; reflexivity. }
  destruct Hl' as (z & Hoff & Hscale). rewrite Hoff, Hscale.
  intros E. apply (f_equal this) in E.
  assert (Hl : (this (Z2Qc z / Z2Qc 2)%Qc == inject_Z z / 2)%Q).
  { unfold Qcdiv, Qcmult, Qcinv, Z2Qc. cbn [this Q2Qc].
    rewrite !Qred_correct. reflexivity. }
  assert (Hr : this ((Z2Qc 10 - Z2Qc 3
                              * py_min (Z2Qc 10 / Z2Qc 3) (Z2Qc 5 / Z2Qc 2))
                     / Z2Qc 2)%Qc = 5 # 4) by (vm_compute; reflexivity).
  rewrite E, Hr in Hl. unfold Qeq in Hl. cbn in Hl. lia.
Qed.

(** ** The label file *)


(** One line per committed box, in the order of the list. *)
Lemma label_lines_each (img : QSize) (bs : list CommittedBox) :
  forall lines,
    label_lines img bs = Ok lines ->
    Forall2 (fun b line => label_line img b = Ok line) bs lines.
Proof.
  induction bs as [|b rest IH]; intros lines H; cbn [label_lines] in H.
  - injection H as <-. constructor.
  - bind_inv H. bind_inv H. injection H as <-. constructor; auto.
Qed.

(** X15: The size [save_labels] divides by, and the image it saves, are those of
    the pixmap on show. *)
Lemma save_labels_written (w w' : LabelingTool) (saved : Saved) :
  save_labels w = Ok (w', Some saved) ->
  exists img,
    shown_pixmap (label w) = Some img /\
    saved_image saved = img /\
    label_lines img (bboxes (label w)) = Ok (saved_lines saved) /\
    List.length (saved_lines saved) = List.length (bboxes (label w)).
Proof.
  unfold save_labels. intros H.
  destruct (image_path w) as [path|]; [|discriminate].
  destruct (_ || _); [discriminate|].
  destruct (shown_pixmap (label w)) as [img|]; [|discriminate].
  bind_inv H. injection H as _ <-. exists img. cbn.
  repeat split; auto.
  apply label_lines_each in Ha. symmetry. eapply Forall2_length; eauto.
Qed.

(** The end-to-end example, with the image shown at its own size: the box
    (100,100,200,300) of class 0 on an 800 x 600 image gives the line
    0, 1/4, 5/12, 1/4, 1/2. *)
Lemma save_labels_at_native_size :
  exists w w' saved,
    session None (load_800x600 :: drag 100 100 300 400
                  ++ [ReturnPressed "cat"]) = Ok w /\
    class_to_id w = [("cat"%string, 0)] /\
    map box_values (bboxes (label w))
    = [(100 # 1, 100 # 1, 200 # 1, 300 # 1, 0)] /\
    save_labels w = Ok (w', Some saved) /\
    map line_values (saved_lines saved)
    = [(0, 1 # 4, 5 # 12, 1 # 4, 1 # 2)].
Proof.
  eexists. eexists. eexists. split; [vm_compute; reflexivity|].
  split; [reflexivity|]. split; [reflexivity|].
  split; [vm_compute; reflexivity|]. reflexivity.
Qed.

(** C1: the sizes [save_labels] divides by are those of the scaled pixmap on
    show, not the native ones.  A 1600 x 1200 image in the 800 x 600
    viewport is shown at half size; the box dragged from (100,100) to
    (300,400) on screen is (200,200,400,600) in image space; the line written
    is 0, 1/2, 5/6, 1/2, 1, where the native size gives 0, 1/4, 5/12, 1/4,
    1/2; and the image saved is 800 x 600. *)
Theorem save_labels_divides_by_shown_size :
  exists w w' saved native_lines,
    session None (LoadImage "a.png" (mkSize 1600 1200)
                  :: drag 100 100 300 400 ++ [ReturnPressed "cat"]) = Ok w /\
    original_pixmap (label w) = Some (mkSize 1600 1200) /\
    shown_pixmap (label w) = Some (mkSize 800 600) /\
    map box_values (bboxes (label w))
    = [(200 # 1, 200 # 1, 400 # 1, 600 # 1, 0)] /\
    save_labels w = Ok (w', Some saved) /\
    saved_image saved = mkSize 800 600 /\
    map line_values (saved_lines saved)
    = [(0, 1 # 2, 5 # 6, 1 # 2, 1 # 1)] /\
    label_lines (mkSize 1600 1200) (bboxes (label w)) = Ok native_lines /\
    map line_values native_lines = [(0, 1 # 4, 5 # 12, 1 # 4, 1 # 2)].
Proof.
  eexists. eexists. eexists. eexists. split; [vm_compute; reflexivity|].
  split; [reflexivity|]. split; [reflexivity|]. split; [reflexivity|].
  split; [vm_compute; reflexivity|]. split; [reflexivity|].
  split; [reflexivity|]. split; [vm_compute; reflexivity|]. reflexivity.
Qed.

(** ** The registry over a session *)

Lemma dict_get_None_keys (k : string) (d : dict) :
  dict_get k d = None -> ~ In k (map fst d).
Proof.
  induction d as [|[k' v'] t IH]; simpl; [tauto|].
  destruct (String.eqb k k') eqn:E; [discriminate|].
  apply String.eqb_neq in E. intros H [Hk|Hk]; [congruence|now apply IH].
Qed.

Lemma resolve_cases (name : string) (d d' : dict) (n n' id : Z) :
  resolve name d n = Ok (id, d', n') ->
  (dict_get name d = Some id /\ d' = d /\ n' = n) \/
  (dict_get name d = None /\ id = n /\ d' = d ++ [(name, n)] /\ n' = n + 1).
Proof.
  intros H. destruct (dict_get name d) as [v|] eqn:E.
  - rewrite (resolve_existing _ _ _ _ E) in H. injection H as <- <- <-. auto.
  - rewrite (resolve_fresh _ _ _ E) in H. injection H as <- <- <-.
    right. now rewrite dict_set_fresh.
Qed.

(** An event leaves the registry and its counter alone, or resolves one
    name. *)
Lemma handle_registry_step (tk : Toolkit) (ev : Event) (w w' : LabelingTool) :
  handle tk ev w = Ok w' ->
  (class_to_id w' = class_to_id w /\ current_class_id w' = current_class_id w)
  \/ (exists name id,
        resolve name (class_to_id w) (current_class_id w)
        = Ok (id, class_to_id w', current_class_id w')).
Proof.
  intros H.
  destruct ev as [path pixmap|sz|lb x y|x y|lb|text|]; cbn [handle] in H.
  - left. unfold load_image in H. destruct (String.eqb path "").
    + now injection H as <-.
    + bind_inv H. now injection H as <-.
  - left. bind_inv H. now injection H as <-.
  - left. unfold mousePressEvent in H.
    destruct lb; [|now injection H as <-].
    destruct (original_pixmap (label w)); [|now injection H as <-].
    bind_inv H. destruct a as [sx sy]. now injection H as <-.
  - left. unfold mouseMoveEvent in H.
    destruct (drawing (label w)); [|now injection H as <-].
    bind_inv H. destruct a as [end_x end_y].
    destruct (start_xy (label w)) as [[start_x start_y]|]; [|discriminate].
    destruct (current_bbox (label w)); [|discriminate].
    now injection H as <-.
  - left. unfold mouseReleaseEvent in H.
    destruct (lb && drawing (label w)); now injection H as <-.
  - unfold add_class_id in H.
    destruct (current_bbox (label w)); [|left; now injection H as <-].
    destruct (negb (String.eqb text "")); [|left; now injection H as <-].
    bind_inv H. destruct a as [[id d] n]. injection H as <-.
    right. exists text, id. exact Ha.
  - left. bind_inv H. destruct a as [w1 saved]. injection H as <-.
    unfold save_labels in Ha.
    destruct (image_path w); [|discriminate].
    destruct (_ || _); [now injection Ha as <- _|].
    destruct (shown_pixmap (label w)); [|discriminate].
    bind_inv Ha. now injection Ha as <- _.
Qed.

Lemma resolve_keeps_entries (name : string) (d d' : dict) (n n' id : Z)
    (k : string) (v : Z) :
  resolve name d n = Ok (id, d', n') ->
  dict_get k d = Some v -> dict_get k d' = Some v.
Proof.
  intros H Hk. apply resolve_cases in H.
  destruct H as [(_ & -> & _)|(Hnone & _ & -> & _)]; [exact Hk|].
  rewrite <- (dict_set_fresh name n d Hnone).
  rewrite dict_get_set_other; [exact Hk|]. intros ->. congruence.
Qed.

(** X8: A name keeps the id it has for the rest of the session: no event
    changes or removes an entry of the registry. *)
Theorem registry_entries_persist (tk : Toolkit) (evs : list Event) :
  forall (w w' : LabelingTool) (k : string) (v : Z),
    run tk evs w = Ok w' ->
    dict_get k (class_to_id w) = Some v ->
    dict_get k (class_to_id w') = Some v.
Proof.
  induction evs as [|ev rest IH]; intros w w' k v H Hk; cbn [run] in H.
  - now injection H as <-.
  - bind_inv H. apply (IH a w' k v H).
    destruct (handle_registry_step tk ev w a Ha) as [[-> _]|(nm & id & Hres)];
      [exact Hk|].
    eapply resolve_keeps_entries; eauto.
Qed.

Lemma registry_entries_persist_witness :
  exists w w',
    session None (load_800x600 :: drag 100 100 300 400
                  ++ [ReturnPressed "cat"]) = Ok w /\
    run Qt5 (drag 10 10 20 20 ++ [ReturnPressed "dog"]
             ++ drag 30 30 50 50 ++ [ReturnPressed "cat"]) w = Ok w' /\
    dict_get "cat" (class_to_id w') = Some 0.
Proof.
  assert (H0 : session None (load_800x600 :: drag 100 100 300 400
                             ++ [ReturnPressed "cat"]) = Ok _)
    by (vm_compute; reflexivity).
  match type of H0 with
  | _ = Ok ?w =>
      assert (H : run Qt5 (drag 10 10 20 20 ++ [ReturnPressed "dog"]
                           ++ drag 30 30 50 50 ++ [ReturnPressed "cat"]) w
                  = Ok _)
        by (vm_compute; reflexivity)
  end.
  eexists. eexists. split; [exact H0|]. split; [exact H|].
  exact (registry_entries_persist Qt5 _ _ _ "cat" 0 H eq_refl).
Defined.

(** X12: [reverse_lookup] raises [IndexError] exactly for an id no name has. *)
Theorem reverse_lookup_missing (d : dict) (id : Z) :
  reverse_lookup d id = Raise IndexError <-> ~ In id (dict_values d).
Proof.
  unfold reverse_lookup, dict_values. split.
  - intros H Hin. apply in_map_iff in Hin. destruct Hin as [[k v] [Hv Hd]].
    simpl in Hv. subst v.
    assert (Hf : In (k, id) (filter (fun item => snd item =? id) d)).
    { apply filter_In. split; [exact Hd|]. apply Z.eqb_refl. }
    destruct (filter _ d); [contradiction|discriminate].
  - intros Hnot.
    destruct (filter (fun item => snd item =? id) d) as [|[k v] t] eqn:E;
      [reflexivity|].
    exfalso. apply Hnot.
    assert (Hf : In (k, v) (filter (fun item => snd item =? id) d))
      by (rewrite E; now left).
    apply filter_In in Hf. destruct Hf as [Hd Hv].
    apply Z.eqb_eq in Hv. simpl in Hv. subst v.
    apply in_map_iff. now exists (k, id).
Qed.

Lemma reverse_lookup_unique (d : dict) (name : string) (id : Z) :
  NoDup (dict_values d) -> In (name, id) d -> reverse_lookup d id = Ok name.
Proof.
  unfold reverse_lookup, dict_values.
  induction d as [|[k v] t IH]; intros Hnd Hin; [contradiction|].
  inversion Hnd as [|? ? Hnotin Hnd']; subst. cbn [filter snd].
  destruct (v =? id) eqn:E.
  - apply Z.eqb_eq in E. subst v. destruct Hin as [[= ->]|Hin]; [reflexivity|].
    exfalso. apply Hnotin. apply in_map_iff. now exists (name, id).
  - destruct Hin as [[= _ Hv]|Hin]; [rewrite Hv, Z.eqb_refl in E; discriminate|].
    now apply IH.
Qed.

Lemma resolve_distinct_ids (name : string) (d d' : dict) (n n' id : Z) :
  distinct_ids d n ->
  resolve name d n = Ok (id, d', n') ->
  distinct_ids d' n' /\ In (name, id) d'.
Proof.
  intros [Hnd Hlt] H. apply resolve_cases in H.
  destruct H as [(Hget & -> & ->)|(Hnone & -> & -> & ->)].
  - split; [now split|]. now apply dict_get_In.
  - split; [|apply in_or_app; right; now left].
    unfold distinct_ids, dict_values in *. rewrite map_app. cbn [map snd].
    split.
    + apply NoDup_app; [exact Hnd|repeat constructor; tauto|].
      intros x Hx [<-|[]]. apply Hlt in Hx. lia.
    + intros v Hv. apply in_app_or in Hv.
      destruct Hv as [Hv|[<-|[]]]; [apply Hlt in Hv|]; lia.
Qed.

(** X11: Where no two names share an id and every id is below the counter,
    resolving a name and looking its id up again gives the name back, and
    the registry stays of that kind. *)
Theorem resolve_then_reverse_lookup (name : string) (d d' : dict)
    (n n' id : Z) :
  distinct_ids d n ->
  resolve name d n = Ok (id, d', n') ->
  reverse_lookup d' id = Ok name /\ distinct_ids d' n'.
Proof.
  intros Hd H. destruct (resolve_distinct_ids _ _ _ _ _ _ Hd H) as [Hd' Hin].
  split; [|exact Hd']. apply reverse_lookup_unique; [apply Hd'|exact Hin].
Qed.

Lemma resolve_then_reverse_lookup_witness :
  reverse_lookup [("cat"%string, 0); ("dog"%string, 1)] 1 = Ok "dog"%string /\
  distinct_ids [("cat"%string, 0); ("dog"%string, 1)] 2.
Proof.
  apply (resolve_then_reverse_lookup "dog" [("cat"%string, 0)] _ 1 2 1).
  - split.
    + repeat constructor. simpl. tauto.
    + simpl. intros v [<-|[]]. reflexivity.
  - reflexivity.
Defined.

(** A property of registry and counter that [resolve] keeps is kept by a
    whole run of events. *)
Lemma run_registry_invariant (P : dict -> Z -> Prop) (tk : Toolkit) :
  (forall name d n id d' n',
      P d n -> resolve name d n = Ok (id, d', n') -> P d' n') ->
  forall (evs : list Event) (w w' : LabelingTool),
    P (class_to_id w) (current_class_id w) ->
    run tk evs w = Ok w' ->
    P (class_to_id w') (current_class_id w').
Proof.
  intros Hres evs. induction evs as [|ev rest IH]; intros w w' HP H;
    cbn [run] in H.
  - now injection H as <-.
  - bind_inv H. apply (IH a w'); [|exact H].
    destruct (handle_registry_step tk ev w a Ha)
      as [[-> ->]|(nm & id & Hr)]; [exact HP|].
    eapply Hres; eauto.
Qed.

Lemma resolve_ids_below (name : string) (d d' : dict) (n n' id : Z) :
  (forall v, In v (dict_values d) -> v < n) ->
  resolve name d n = Ok (id, d', n') ->
  forall v, In v (dict_values d') -> v < n'.
Proof.
  intros Hlt H. apply resolve_cases in H.
  destruct H as [(_ & -> & ->)|(_ & _ & -> & ->)]; [exact Hlt|].
  unfold dict_values in *. rewrite map_app. intros v Hv.
  apply in_app_or in Hv. destruct Hv as [Hv|[<-|[]]]; [apply Hlt in Hv|]; simpl; lia.
Qed.

Lemma reachable_ids_below (tk : Toolkit) (w : LabelingTool) :
  reachable tk w ->
  forall v, In v (dict_values (class_to_id w)) -> v < current_class_id w.
Proof.
  induction 1 as [persisted w Hinit|w ev w' _ IH Hstep].
  - unfold init in Hinit. destruct persisted as [mapping|].
    + bind_inv Hinit. destruct a as [d n]. injection Hinit as <-. cbn.
      bind_inv Ha. injection Ha as <- <-.
      destruct mapping as [|p t]; [discriminate|].
      destruct (py_max_spec (dict_values (p :: t))) as (m & Hm & _ & Hmax);
        [discriminate|].
      assert (a = m) by congruence. subst a.
      intros v Hv. apply Hmax in Hv. lia.
    + injection Hinit as <-. cbn. contradiction.
  - destruct (handle_registry_step tk ev w w' Hstep)
      as [[-> ->]|(nm & id & Hr)]; [exact IH|].
    eapply resolve_ids_below; eauto.
Qed.

(** X9: In every state a session reaches, whatever registry file it started
    from, the counter is above every id in the registry and above the class
    id of every committed box: the id the next new class gets is not in use. *)
Theorem counter_above_ids (tk : Toolkit) (w : LabelingTool) :
  reachable tk w ->
  (forall k v, In (k, v) (class_to_id w) -> v < current_class_id w) /\
  (forall b, In b (bboxes (label w)) -> bclass b < current_class_id w).
Proof.
  intros Hr. pose proof (reachable_ids_below tk w Hr) as Hlt.
  destruct (reachable_renderable tk w Hr) as [Hids _]. split.
  - intros k v Hin. apply Hlt. unfold dict_values. apply in_map_iff.
    now exists (k, v).
  - intros b Hb. destruct (Hids b Hb) as [name Hname]. apply Hlt.
    unfold dict_values. apply in_map_iff. now exists (name, bclass b).
Qed.

Lemma counter_above_ids_witness :
  exists w,
    session (Some [("car"%string, 7); ("bus"%string, 3)])
      (load_800x600 :: drag 100 100 300 400 ++ [ReturnPressed "cat"]) = Ok w /\
    current_class_id w = 9 /\
    (forall b, In b (bboxes (label w)) -> bclass b < current_class_id w).
Proof.
  assert (H : session (Some [("car"%string, 7); ("bus"%string, 3)])
                (load_800x600 :: drag 100 100 300 400
                 ++ [ReturnPressed "cat"]) = Ok _)
    by (vm_compute; reflexivity).
  eexists. split; [exact H|]. split; [reflexivity|].
  exact (proj2 (counter_above_ids Qt5 _ (session_reachable _ _ _ H))).
Defined.

(** ** Sessions that start without a registry file *)

Lemma ids_from_snoc (a : Z) (k : nat) :
  ids_from a (S k) = ids_from a k ++ [a + Z.of_nat k].
Proof.
  unfold ids_from. rewrite seq_S, map_app. reflexivity.
Qed.

Lemma resolve_sequential (name : string) (d d' : dict) (n n' id : Z) :
  sequential_registry d n ->
  resolve name d n = Ok (id, d', n') ->
  sequential_registry d' n'.
Proof.
  intros (Hv & Hn & Hk) H. apply resolve_cases in H.
  destruct H as [(_ & -> & ->)|(Hnone & _ & -> & ->)]; [now repeat split|].
  unfold sequential_registry, dict_values in *.
  rewrite !map_app, length_app. cbn [map fst snd List.length].
  rewrite Nat.add_1_r, ids_from_snoc, Hv. repeat split.
  - now subst n.
  - lia.
  - apply NoDup_app; [exact Hk|repeat constructor; tauto|].
    intros x Hx [<-|[]]. now apply dict_get_None_keys in Hnone.
Qed.

Lemma run_sequential (tk : Toolkit) (evs : list Event) (w0 w : LabelingTool) :
  init None = Ok w0 ->
  run tk evs w0 = Ok w ->
  sequential_registry (class_to_id w) (current_class_id w).
Proof.
  intros Hinit Hrun.
  apply (run_registry_invariant sequential_registry tk) with (evs := evs)
    (w := w0); [|
    |exact Hrun].
  { intros name d n id d' n'. apply resolve_sequential. }
  injection Hinit as <-. cbn. repeat split. constructor.
Qed.

(** X10: A session that starts without a registry file numbers its classes 0,
    1, 2, ... in the order in which their names were first committed: at any
    moment the ids are 0..n-1 in that order, the names are distinct and the
    counter is the number of classes. *)
Theorem fresh_session_registry (tk : Toolkit) (evs : list Event)
    (w0 w : LabelingTool) :
  init None = Ok w0 ->
  run tk evs w0 = Ok w ->
  dict_values (class_to_id w) = ids_from 0 (List.length (class_to_id w)) /\
  current_class_id w = Z.of_nat (List.length (class_to_id w)) /\
  NoDup (map fst (class_to_id w)).
Proof.
  intros Hinit Hrun. exact (run_sequential tk evs w0 w Hinit Hrun).
Qed.

Lemma fresh_session_registry_witness :
  exists w,
    run Qt5 (load_800x600 :: drag 100 100 300 400 ++ [ReturnPressed "cat"]
             ++ drag 10 10 20 20 ++ [ReturnPressed "dog"]
             ++ drag 30 30 50 50 ++ [ReturnPressed "cat"])
        (mkTool [] 0 (new_label (mkSize 800 600)) false false None) = Ok w /\
    class_to_id w = [("cat"%string, 0); ("dog"%string, 1)] /\
    current_class_id w = Z.of_nat (List.length (class_to_id w)).
Proof.
  assert (H : run Qt5 (load_800x600 :: drag 100 100 300 400
                       ++ [ReturnPressed "cat"]
                       ++ drag 10 10 20 20 ++ [ReturnPressed "dog"]
                       ++ drag 30 30 50 50 ++ [ReturnPressed "cat"])
                (mkTool [] 0 (new_label (mkSize 800 600)) false false None)
              = Ok _)
    by (vm_compute; reflexivity).
  eexists. split; [exact H|]. split; [reflexivity|].
  exact (proj1 (proj2 (fresh_session_registry Qt5 _ _ _ eq_refl H))).
Defined.

(** ** The manifest *)

Lemma In_dict_get (d : dict) (k : string) (v : Z) :
  NoDup (map fst d) -> In (k, v) d -> dict_get k d = Some v.
Proof.
  induction d as [|[k' v'] t IH]; intros Hnd Hin; [contradiction|].
  inversion Hnd as [|? ? Hnotin Hnd']; subst. simpl.
  destruct Hin as [[= -> ->]|Hin].
  - now rewrite String.eqb_refl.
  - destruct (String.eqb k k') eqn:E; [|auto].
    apply String.eqb_eq in E. subst k'. exfalso. apply Hnotin.
    apply in_map_iff. now exists (k, v).
Qed.

Lemma keyed_items (d : dict) (l : list (string * Z)) :
  (forall k v, In (k, v) l -> dict_get k d = Some v) ->
  keyed d (map fst l) = Ok l.
Proof.
  induction l as [|[k v] t IH]; intros H; [reflexivity|].
  cbn [map fst keyed]. rewrite (H k v) by now left.
  rewrite IH by (intros k' v' Hin; apply H; now right). reflexivity.
Qed.

Lemma insert_keyed_perm (p : string * Z) (l : list (string * Z)) :
  Permutation (insert_keyed p l) (p :: l).
Proof.
  induction l as [|q t IH]; simpl; [reflexivity|].
  destruct (snd p <=? snd q); [reflexivity|].
  rewrite IH. apply perm_swap.
Qed.

Lemma py_sorted_perm (l : list (string * Z)) : Permutation (py_sorted l) l.
Proof.
  induction l as [|p t IH]; simpl; [reflexivity|].
  rewrite insert_keyed_perm. now constructor.
Qed.

Lemma insert_keyed_sorted (p : string * Z) (l : list (string * Z)) :
  Sorted by_id l -> Sorted by_id (insert_keyed p l).
Proof.
  induction l as [|q t IH]; intros Hs; simpl.
  - repeat constructor.
  - destruct (snd p <=? snd q) eqn:E.
    + apply Z.leb_le in E. constructor; [exact Hs|]. now constructor.
    + apply Z.leb_gt in E. inversion Hs as [|? ? Hs' Hhd]; subst.
      constructor; [now apply IH|].
      destruct t as [|r t']; simpl.
      * constructor. unfold by_id. lia.
      * destruct (snd p <=? snd r).
        -- constructor. unfold by_id. lia.
        -- constructor. now inversion Hhd.
Qed.

Lemma py_sorted_sorted (l : list (string * Z)) : Sorted by_id (py_sorted l).
Proof.
  induction l as [|p t IH]; simpl; [constructor|].
  now apply insert_keyed_sorted.
Qed.

(** Already in ascending order of id, a list comes out of [sorted] as it
    went in. *)
Lemma py_sorted_ascending (l : list (string * Z)) :
  StronglySorted by_id l -> py_sorted l = l.
Proof.
  induction 1 as [|p t Hs IH Hall]; simpl; [reflexivity|].
  rewrite IH. destruct t as [|q t']; [reflexivity|]. simpl.
  inversion Hall as [|? ? Hpq _]; subst. unfold by_id in Hpq.
  apply Z.leb_le in Hpq. now rewrite Hpq.
Qed.

Lemma ids_from_ascending (l : list (string * Z)) :
  forall a : Z,
    map snd l = ids_from a (List.length l) -> StronglySorted by_id l.
Proof.
  induction l as [|p t IH]; intros a H; [constructor|].
  cbn [List.length map] in H. rewrite ids_from_cons in H.
  injection H as Hp Ht. constructor; [eapply IH; eauto|].
  apply Forall_forall. intros q Hq. unfold by_id. rewrite Hp.
  assert (Hin : In (snd q) (ids_from (a + 1) (List.length t)))
    by (rewrite <- Ht; now apply in_map).
  apply ids_from_lower in Hin. lia.
Qed.

(** X13: The names of [data.yaml], for a registry with distinct names (any
    [dict]): every registered name once, in ascending order of id; the class
    count is the number of names. *)
Theorem manifest_sorted_by_id (w : LabelingTool) :
  NoDup (map fst (class_to_id w)) ->
  exists items,
    data_yaml w
    = Ok (mkManifest (Z.of_nat (List.length items)) (map fst items)) /\
    Permutation items (class_to_id w) /\
    Sorted by_id items.
Proof.
  intros Hnd. exists (py_sorted (class_to_id w)).
  unfold data_yaml, sorted_class_names.
  rewrite keyed_items by (intros k v; now apply In_dict_get).
  cbn [bind]. split; [|split].
  - now rewrite (Permutation_length (py_sorted_perm (class_to_id w))).
  - apply py_sorted_perm.
  - apply py_sorted_sorted.
Qed.

Lemma manifest_sorted_by_id_witness :
  exists items,
    data_yaml (mkTool [("dog"%string, 1); ("cat"%string, 0); ("bird"%string, 2)]
                 3 (new_label (mkSize 800 600)) false false None)
    = Ok (mkManifest (Z.of_nat (List.length items)) (map fst items)) /\
    Permutation items
      [("dog"%string, 1); ("cat"%string, 0); ("bird"%string, 2)] /\
    Sorted by_id items /\
    map fst items = ["cat"%string; "dog"%string; "bird"%string].
Proof.
  destruct (manifest_sorted_by_id
              (mkTool [("dog"%string, 1); ("cat"%string, 0);
                       ("bird"%string, 2)]
                 3 (new_label (mkSize 800 600)) false false None))
    as (items & Hyaml & Hperm & Hsorted).
  - repeat constructor; simpl; intuition discriminate.
  - exists items. repeat split; auto.
    change (Ok (mkManifest 3 ["cat"%string; "dog"%string; "bird"%string])
            = Ok (mkManifest (Z.of_nat (List.length items)) (map fst items)))
      in Hyaml.
    now injection Hyaml as _ <-.
Defined.

(** X14: In a session that starts without a registry file, [data.yaml] lists the
    names in the order of their ids with [nc] equal to the counter: pairing
    the i-th name with i gives back the registry, and the class id of every
    committed box is an index into the list (0 <= id < nc). *)
Theorem fresh_session_manifest (tk : Toolkit) (evs : list Event)
    (w0 w : LabelingTool) :
  init None = Ok w0 ->
  run tk evs w0 = Ok w ->
  exists m,
    data_yaml w = Ok m /\
    nc m = current_class_id w /\
    combine (names m) (ids_from 0 (List.length (names m))) = class_to_id w /\
    (forall b, In b (bboxes (label w)) -> 0 <= bclass b < nc m).
Proof.
  intros Hinit Hrun.
  destruct (run_sequential tk evs w0 w Hinit Hrun) as (Hv & Hn & Hk).
  assert (Hreach : reachable tk w).
  { eapply run_reachable; [|exact Hrun]. eapply reachable_init; eauto. }
  destruct (reachable_renderable tk w Hreach) as [Hids _].
  eexists. unfold data_yaml, sorted_class_names.
  rewrite keyed_items by (intros k v; now apply In_dict_get).
  cbn [bind].
  rewrite (py_sorted_ascending (class_to_id w))
    by (eapply ids_from_ascending; exact Hv).
  split; [reflexivity|]. cbn [nc names]. repeat split.
  - now rewrite Hn.
  - rewrite length_map, <- Hv. unfold dict_values.
    clear. induction (class_to_id w) as [|[k v] t IH]; simpl; [reflexivity|].
    now rewrite IH.
  - destruct (Hids b H) as [name Hname].
    assert (Hin : In (bclass b) (ids_from 0 (List.length (class_to_id w)))).
    { rewrite <- Hv. unfold dict_values. apply in_map_iff.
      now exists (name, bclass b). }
    now apply ids_from_lower in Hin.
  - destruct (Hids b H) as [name Hname].
    assert (Hin : In (bclass b) (ids_from 0 (List.length (class_to_id w)))).
    { rewrite <- Hv. unfold dict_values. apply in_map_iff.
      now exists (name, bclass b). }
    unfold ids_from in Hin. apply in_map_iff in Hin.
    destruct Hin as (i & <- & Hi). apply in_seq in Hi. lia.
Qed.

Lemma fresh_session_manifest_witness :
  exists w m,
    run Qt5 (load_800x600 :: drag 100 100 300 400 ++ [ReturnPressed "cat"]
             ++ drag 10 10 20 20 ++ [ReturnPressed "dog"])
        (mkTool [] 0 (new_label (mkSize 800 600)) false false None) = Ok w /\
    data_yaml w = Ok m /\
    nc m = 2 /\
    names m = ["cat"%string; "dog"%string].
Proof.
  assert (H : run Qt5 (load_800x600 :: drag 100 100 300 400
                       ++ [ReturnPressed "cat"]
                       ++ drag 10 10 20 20 ++ [ReturnPressed "dog"])
                (mkTool [] 0 (new_label (mkSize 800 600)) false false None)
              = Ok _)
    by (vm_compute; reflexivity).
  destruct (fresh_session_manifest Qt5 _ _ _ eq_refl H)
    as (m & Hyaml & Hnc & _).
  eexists. exists m. split; [exact H|]. split; [exact Hyaml|].
  change (Ok (mkManifest 2 ["cat"%string; "dog"%string]) = Ok m) in Hyaml.
  injection Hyaml as <-. split; reflexivity.
Defined.

(** ** What the widgets' enabling rules out *)








Lemma dict_get_of_key (d : dict) (k : string) :
  In k (map fst d) -> exists v, dict_get k d = Some v.
Proof.
  induction d as [|[k' v'] t IH]; simpl; [contradiction|].
  intros Hin. destruct (String.eqb k k') eqn:E; [eauto|].
  apply String.eqb_neq in E. destruct Hin as [Hk|Hk]; [congruence|auto].
Qed.

Lemma keyed_returns (d : dict) (l : list string) :
  (forall x, In x l -> In x (map fst d)) ->
  exists ks, keyed d l = Ok ks.
Proof.
  induction l as [|x rest IH]; intros H; [now exists []|].
  destruct (dict_get_of_key d x) as [v Hv]; [apply H; now left|].
  destruct IH as [ks Hks]; [intros y Hy; apply H; now right|].
  cbn [keyed]. rewrite Hv, Hks. cbn [bind]. eauto.
Qed.

(** The manifest computation never fails: every name it sorts is a key. *)
Lemma data_yaml_returns (w : LabelingTool) : exists m, data_yaml w = Ok m.
Proof.
  unfold data_yaml, sorted_class_names.
  destruct (keyed_returns (class_to_id w) (map fst (class_to_id w)))
    as [ks Hks]; [auto|].
  rewrite Hks. cbn [bind]. eauto.
Qed.










(** ** Drawing a box *)

Lemma to_image_space_nonzero (l : ImageLabel) (p : Qc * Qc) :
  scale_factor l <> Z2Qc 0 ->
  to_image_space l p
  = Ok (((fst p - fst (image_offset l)) / scale_factor l)%Qc,
        ((snd p - snd (image_offset l)) / scale_factor l)%Qc).
Proof.
  intros Hs. unfold to_image_space. now rewrite !py_div_nonzero by exact Hs.
Qed.

Lemma drag_extent (a b o s : Qc) :
  s <> Z2Qc 0 -> ((b - o) / s - (a - o) / s)%Qc = ((b - a) / s)%Qc.
Proof.
  intros Hs. change (Z2Qc 0) with 0%Qc in Hs. field. exact Hs.
Qed.

(** X1: A whole annotation: with an image loaded and a non-zero scale factor,
    pressing at (x0,y0), moving to (x1,y1), releasing and entering a
    non-empty class name appends one box.  Its origin is the press point in
    image space; its width and height are the display displacement divided by
    the scale factor, with its sign (the offset cancels); its class id is the
    one the registry then holds for the name; the editor is idle again. *)
Theorem drag_then_commit (tk : Toolkit) (w : LabelingTool)
    (x0 y0 x1 y1 : Z) (name : string) :
  original_pixmap (label w) <> None ->
  scale_factor (label w) <> Z2Qc 0 ->
  name <> ""%string ->
  let s := scale_factor (label w) in
  let ox := fst (image_offset (label w)) in
  let oy := snd (image_offset (label w)) in
  exists w' id,
    run tk (drag x0 y0 x1 y1 ++ [ReturnPressed name]) w = Ok w' /\
    dict_get name (class_to_id w') = Some id /\
    bboxes (label w')
    = bboxes (label w)
      ++ [mkBox ((Z2Qc x0 - ox) / s)%Qc ((Z2Qc y0 - oy) / s)%Qc
                ((Z2Qc x1 - Z2Qc x0) / s)%Qc ((Z2Qc y1 - Z2Qc y0) / s)%Qc id] /\
    phase w' = Idle.
Proof.
  destruct w as [d n [bs cb dr sf [ox oy] op st sz sh] ci sb ip].
  cbn [label original_pixmap scale_factor image_offset fst snd bboxes].
  intros Ho Hs Hname.
  destruct op as [orig|]; [|congruence].
  cbn [drag app run handle].
  unfold mousePressEvent.
  cbn [label original_pixmap with_drawing bboxes current_bbox drawing
       scale_factor image_offset start_xy label_size shown_pixmap].
  rewrite to_image_space_nonzero by exact Hs.
  cbn -[Qcdiv Qcminus Z2Qc to_image_space add_class_id].
  rewrite to_image_space_nonzero by exact Hs.
  cbn -[Qcdiv Qcminus Z2Qc to_image_space add_class_id].
  match goal with
  | |- exists w' id, bind (add_class_id name ?w1) _ = _ /\ _ =>
      destruct (add_class_id_accepts name w1 _ eq_refl Hname)
        as (id & d' & n' & _ & Hget & _ & Hadd);
      rewrite Hadd
  end.
  eexists. exists id. cbn [bind]. split; [reflexivity|].
  split; [exact Hget|]. split; [|reflexivity].
  cbn -[Qcdiv Qcminus Z2Qc]. unfold append_class.
  cbn -[Qcdiv Qcminus Z2Qc]. now rewrite !drag_extent by exact Hs.
Qed.

Lemma drag_then_commit_witness :
  exists w w' id,
    session None [LoadImage "a.png" (mkSize 1600 1200)] = Ok w /\
    run Qt5 (drag 300 400 100 100 ++ [ReturnPressed "cat"]) w = Ok w' /\
    dict_get "cat" (class_to_id w') = Some id /\
    map box_values (bboxes (label w'))
    = [(600 # 1, 800 # 1, -400 # 1, -600 # 1, id)].
Proof.
  assert (H : session None [LoadImage "a.png" (mkSize 1600 1200)] = Ok _)
    by (vm_compute; reflexivity).
  match type of H with
  | _ = Ok ?w =>
      destruct (drag_then_commit Qt5 w 300 400 100 100 "cat")
        as (w' & id & Hrun & Hget & Hboxes & _);
      [discriminate|vm_compute; discriminate|discriminate|];
      exists w, w', id; split; [exact H|]; split; [exact Hrun|];
      split; [exact Hget|]; rewrite Hboxes; reflexivity
  end.
Defined.

(** X2: While the button is held only the last position counts: a move after a
    move gives the state the second move alone would have given. *)
Theorem mouse_move_last_wins (x1 y1 x2 y2 : Z) (w w1 : LabelingTool) :
  mouseMoveEvent x1 y1 w = Ok w1 ->
  mouseMoveEvent x2 y2 w1 = mouseMoveEvent x2 y2 w.
Proof.
  unfold mouseMoveEvent. intros H.
  destruct (drawing (label w)) eqn:Hd; [|injection H as <-; now rewrite Hd].
  bind_inv H. destruct a as [e1x e1y].
  destruct (start_xy (label w)) as [[sx sy]|] eqn:Hst; [|discriminate].
  destruct (current_bbox (label w)) as [b|] eqn:Hb; [|discriminate].
  injection H as <-. cbn. rewrite Hd, Hst.
  change (to_image_space (with_current_bbox (label w) _))
    with (to_image_space (label w)).
  destruct (to_image_space (label w) (Z2Qc x2, Z2Qc y2)) as [[e2x e2y]|e];
    reflexivity.
Qed.

Lemma mouse_move_last_wins_witness :
  exists w w1,
    session None [load_800x600; MousePress true 100 100] = Ok w /\
    mouseMoveEvent 500 500 w = Ok w1 /\
    mouseMoveEvent 300 400 w1 = mouseMoveEvent 300 400 w.
Proof.
  assert (H : session None [load_800x600; MousePress true 100 100] = Ok _)
    by (vm_compute; reflexivity).
  match type of H with
  | _ = Ok ?w =>
      assert (H1 : mouseMoveEvent 500 500 w = Ok _)
        by (vm_compute; reflexivity);
      match type of H1 with
      | _ = Ok ?w1 =>
          exists w, w1; split; [exact H|]; split; [exact H1|];
          exact (mouse_move_last_wins 500 500 300 400 w w1 H1)
      end
  end.
Defined.

(** The run of one annotation, as the handlers compute it. *)
Lemma drag_commit_run (tk : Toolkit) (w : LabelingTool)
    (x0 y0 x1 y1 : Z) (name : string) :
  original_pixmap (label w) <> None ->
  scale_factor (label w) <> Z2Qc 0 ->
  name <> ""%string ->
  exists w' id,
    run tk (drag x0 y0 x1 y1 ++ [ReturnPressed name]) w = Ok w' /\
    dict_get name (class_to_id w') = Some id /\
    bboxes (label w')
    = bboxes (label w)
      ++ [mkBox ((Z2Qc x0 - fst (image_offset (label w)))
                 / scale_factor (label w))%Qc
                ((Z2Qc y0 - snd (image_offset (label w)))
                 / scale_factor (label w))%Qc
                (Z2Qc (x1 - x0) / scale_factor (label w))%Qc
                (Z2Qc (y1 - y0) / scale_factor (label w))%Qc id] /\
    current_bbox (label w') = None.
Proof.
  destruct w as [d n [bs cb dr sf [ox oy] op st sz sh] ci sb ip].
  cbn [label original_pixmap scale_factor image_offset fst snd bboxes].
  intros Ho Hs Hname.
  destruct op as [orig|]; [|congruence].
  cbn [drag app run handle].
  unfold mousePressEvent.
  cbn [label original_pixmap with_drawing bboxes current_bbox drawing
       scale_factor image_offset start_xy label_size shown_pixmap].
  rewrite to_image_space_nonzero by exact Hs.
  cbn -[Qcdiv Qcminus Z2Qc to_image_space add_class_id].
  rewrite to_image_space_nonzero by exact Hs.
  cbn -[Qcdiv Qcminus Z2Qc to_image_space add_class_id].
  match goal with
  | |- exists w' id, bind (add_class_id name ?w1) _ = _ /\ _ =>
      destruct (add_class_id_accepts name w1 _ eq_refl Hname)
        as (id & d' & n' & _ & Hget & _ & Hadd);
      rewrite Hadd
  end.
  eexists. exists id. cbn [bind]. split; [reflexivity|].
  split; [exact Hget|]. split; [|reflexivity].
  cbn -[Qcdiv Qcminus Z2Qc]. unfold append_class.
  cbn -[Qcdiv Qcminus Z2Qc].
  now rewrite !drag_extent, !Z2Qc_sub by exact Hs.
Qed.

Lemma Q_div_pos_iff (a s : Q) : (0 < s -> (0 < a / s <-> 0 < a))%Q.
Proof.
  intros Hs. assert (Hne : ~ (s == 0)%Q) by (intros E; rewrite E in Hs;
                                             now apply Qlt_irrefl in Hs).
  split; intros H.
  - rewrite <- (Qmult_div_r a s Hne). now apply Qmult_lt_0_compat.
  - apply Qlt_shift_div_l; [exact Hs|]. now rewrite Qmult_0_l.
Qed.

Lemma Q_div_neg_iff (a s : Q) : (0 < s -> (a / s < 0 <-> a < 0))%Q.
Proof.
  intros Hs. assert (Hne : ~ (s == 0)%Q) by (intros E; rewrite E in Hs;
                                             now apply Qlt_irrefl in Hs).
  split; intros H.
  - rewrite <- (Qmult_div_r a s Hne), <- (Qmult_0_r s).
    rewrite !(Qmult_comm s). now apply Qmult_lt_compat_r.
  - apply Qlt_shift_div_r; [exact Hs|]. now rewrite Qmult_0_l.
Qed.

(** The sign of a displacement divided by a positive scale factor is the
    sign of the displacement. *)
Lemma extent_sign (z : Z) (s : Qc) :
  (Z2Qc 0 < s)%Qc ->
  ((Z2Qc 0 < Z2Qc z / s)%Qc <-> 0 < z) /\
  ((Z2Qc z / s < Z2Qc 0)%Qc <-> z < 0).
Proof.
  intros Hs.
  assert (Hv : (this (Z2Qc z / s)%Qc == inject_Z z / this s)%Q).
  { unfold Qcdiv, Qcmult, Qcinv, Z2Qc. cbn [this Q2Qc].
    rewrite !Qred_correct. reflexivity. }
  assert (Hs' : (0 < this s)%Q) by exact Hs.
  unfold Qclt. change (this (Z2Qc 0)) with 0%Q. rewrite Hv. split.
  - rewrite (Q_div_pos_iff _ _ Hs'). change 0%Q with (inject_Z 0).
    now rewrite <- Zlt_Qlt.
  - rewrite (Q_div_neg_iff _ _ Hs'). change 0%Q with (inject_Z 0).
    now rewrite <- Zlt_Qlt.
Qed.

(** C3, as the code has it: an accepted commit appends the pending box as it
    is, nothing normalized: its origin and its signed width and height are
    stored unchanged, with the id [resolve] gives the class name; the boxes
    committed before it stay as they are and the pending box is cleared.
    For a box drawn by one drag (press at (x0,y0), move to (x1,y1), release)
    on a loaded image with a positive scale factor, the committed origin is
    the press point in image space and the committed width and height are
    (x1-x0)/scale and (y1-y0)/scale: the width is positive exactly when the
    drag went right and negative exactly when it went left, the height
    positive exactly when it went down and negative exactly when it went
    up. *)
Theorem commit_appends_box_as_drawn (tk : Toolkit) (w : LabelingTool)
    (name : string) (x0 y0 x1 y1 : Z) :
  name <> ""%string ->
  (forall b,
      current_bbox (label w) = Some b ->
      exists class_id d n w',
        resolve name (class_to_id w) (current_class_id w)
        = Ok (class_id, d, n) /\
        add_class_id name w = Ok w' /\
        bboxes (label w')
        = bboxes (label w) ++ [mkBox (px b) (py b) (pw b) (ph b) class_id] /\
        current_bbox (label w') = None /\
        class_to_id w' = d /\ current_class_id w' = n) /\
  (original_pixmap (label w) <> None ->
   (Z2Qc 0 < scale_factor (label w))%Qc ->
   exists w' c,
     run tk (drag x0 y0 x1 y1 ++ [ReturnPressed name]) w = Ok w' /\
     bboxes (label w') = bboxes (label w) ++ [c] /\
     current_bbox (label w') = None /\
     dict_get name (class_to_id w') = Some (bclass c) /\
     bx c = ((Z2Qc x0 - fst (image_offset (label w)))
             / scale_factor (label w))%Qc /\
     by_ c = ((Z2Qc y0 - snd (image_offset (label w)))
              / scale_factor (label w))%Qc /\
     bw c = ((Z2Qc x1 - Z2Qc x0) / scale_factor (label w))%Qc /\
     bh c = ((Z2Qc y1 - Z2Qc y0) / scale_factor (label w))%Qc /\
     ((Z2Qc 0 < bw c)%Qc <-> x0 < x1) /\
     ((bw c < Z2Qc 0)%Qc <-> x1 < x0) /\
     ((Z2Qc 0 < bh c)%Qc <-> y0 < y1) /\
     ((bh c < Z2Qc 0)%Qc <-> y1 < y0)).
Proof.
  intros Hname. split.
  - intros b Hb.
    destruct (add_class_id_accepts name w b Hb Hname)
      as (id & d & n & Hres & _ & _ & Hadd).
    exists id, d, n. eexists. split; [exact Hres|]. split; [exact Hadd|].
    cbn. repeat split.
  - intros Ho Hs.
    destruct (drag_commit_run tk w x0 y0 x1 y1 name Ho
                (Qc_pos_nonzero _ Hs) Hname)
      as (w' & id & Hrun & Hget & Hboxes & Hcur).
    destruct (extent_sign (x1 - x0) _ Hs) as [Hxp Hxn].
    destruct (extent_sign (y1 - y0) _ Hs) as [Hyp Hyn].
    exists w'. eexists. split; [exact Hrun|]. split; [exact Hboxes|].
    cbn [bx by_ bw bh bclass]. rewrite <- !Z2Qc_sub.
    repeat split; try assumption; try reflexivity;
      try (intros H; first [apply Hxp in H|apply Hxn in H
                           |apply Hyp in H|apply Hyn in H]; lia);
      intros H;
      first [apply Hxp; lia|apply Hxn; lia|apply Hyp; lia|apply Hyn; lia].
Qed.

Lemma commit_appends_box_as_drawn_witness :
  exists w w' w'',
    session None (load_800x600 :: drag 100 100 300 400) = Ok w /\
    add_class_id "cat" w = Ok w' /\
    map box_values (bboxes (label w'))
    = [(100 # 1, 100 # 1, 200 # 1, 300 # 1, 0)] /\
    run Qt5 (drag 300 400 100 100 ++ [ReturnPressed "cat"]) w = Ok w'' /\
    map box_values (bboxes (label w''))
    = [(300 # 1, 400 # 1, -200 # 1, -300 # 1, 0)].
Proof.
  assert (H : session None (load_800x600 :: drag 100 100 300 400) = Ok _)
    by (vm_compute; reflexivity).
  match type of H with
  | _ = Ok ?w =>
      destruct (commit_appends_box_as_drawn Qt5 w "cat" 300 400 100 100
                  ltac:(discriminate)) as [Hcommit Hdrag];
      destruct (Hcommit _ eq_refl)
        as (id & d & n & w' & Hres & Hadd & Hboxes & _);
      destruct Hdrag as (w'' & c & Hrun & Hboxes' & _);
        [discriminate|reflexivity|];
      exists w, w', w''; split; [exact H|]; split; [exact Hadd|];
      split; [rewrite Hboxes; vm_compute in Hres; injection Hres as <- _ _;
              reflexivity|];
      split; [exact Hrun|];
      assert (Hr : run Qt5 (drag 300 400 100 100 ++ [ReturnPressed "cat"]) w
                   = Ok _) by (vm_compute; reflexivity);
      rewrite Hrun in Hr; injection Hr as ->; reflexivity
  end.
Defined.

(** ** Sessions with positive sizes *)









(** ** The committed list, loading and saving *)

(** X3: Committed boxes are never edited, reordered or dropped one by one: an
    event leaves the list as it is, except that loading an image empties it
    and an accepted commit adds the pending box at its end, with the id the
    registry then holds for the class name. *)
Theorem committed_boxes_step (tk : Toolkit) (ev : Event)
    (w w' : LabelingTool) :
  handle tk ev w = Ok w' ->
  match ev with
  | LoadImage path _ =>
      bboxes (label w')
      = if String.eqb path "" then bboxes (label w) else []
  | ReturnPressed name =>
      bboxes (label w') = bboxes (label w) \/
      exists b id,
        current_bbox (label w) = Some b /\
        dict_get name (class_to_id w') = Some id /\
        bboxes (label w') = bboxes (label w) ++ [append_class b id]
  | _ => bboxes (label w') = bboxes (label w)
  end.
Proof.
  intros H.
  destruct ev as [path pixmap|sz|lb x y|x y|lb|text|]; cbn [handle] in H.
  - unfold load_image in H. destruct (String.eqb path "").
    + now injection H as <-.
    + bind_inv H. now injection H as <-.
  - bind_inv H. injection H as <-.
    apply update_scaled_pixmap_frame in Ha. cbn in *. tauto.
  - unfold mousePressEvent in H.
    destruct lb; [|now injection H as <-].
    destruct (original_pixmap (label w)); [|now injection H as <-].
    bind_inv H. destruct a as [sx sy]. now injection H as <-.
  - unfold mouseMoveEvent in H.
    destruct (drawing (label w)); [|now injection H as <-].
    bind_inv H. destruct a as [end_x end_y].
    destruct (start_xy (label w)) as [[start_x start_y]|]; [|discriminate].
    destruct (current_bbox (label w)); [|discriminate].
    now injection H as <-.
  - unfold mouseReleaseEvent in H.
    destruct (lb && drawing (label w)); now injection H as <-.
  - destruct (current_bbox (label w)) as [b|] eqn:Hb.
    + destruct (String.eqb text "") eqn:Hname.
      * left. unfold add_class_id in H. rewrite Hb, Hname in H.
        now injection H as <-.
      * apply String.eqb_neq in Hname.
        destruct (add_class_id_accepts text w b Hb Hname)
          as (id & d & n & _ & Hget & _ & Hadd).
        rewrite Hadd in H. injection H as <-.
        right. exists b, id. cbn. auto.
    + left. unfold add_class_id in H. rewrite Hb in H. now injection H as <-.
  - bind_inv H. destruct a as [w1 saved]. injection H as <-.
    unfold save_labels in Ha.
    destruct (image_path w); [|discriminate].
    destruct (_ || _); [now injection Ha as <- _|].
    destruct (shown_pixmap (label w)); [|discriminate].
    bind_inv Ha. now injection Ha as <- _.
Qed.

Lemma committed_boxes_step_witness :
  exists w w',
    session None (load_800x600 :: drag 100 100 300 400
                  ++ [ReturnPressed "cat"]) = Ok w /\
    handle Qt5 (Resize (mkSize 400 300)) w = Ok w' /\
    bboxes (label w') = bboxes (label w).
Proof.
  assert (H : session None (load_800x600 :: drag 100 100 300 400
                            ++ [ReturnPressed "cat"]) = Ok _)
    by (vm_compute; reflexivity).
  match type of H with
  | _ = Ok ?w =>
      assert (H1 : handle Qt5 (Resize (mkSize 400 300)) w = Ok _)
        by (vm_compute; reflexivity);
      match type of H1 with
      | _ = Ok ?w' =>
          exists w, w'; split; [exact H|]; split; [exact H1|];
          exact (committed_boxes_step Qt5 (Resize (mkSize 400 300)) w w' H1)
      end
  end.
Defined.

(** X16: Saving does not consume anything: after a save that wrote files, the
    boxes and the registry are as before, the save button is disabled, and
    saving again writes the same image, lines and mapping. *)
Theorem save_labels_repeatable (w w' : LabelingTool) (saved : Saved) :
  save_labels w = Ok (w', Some saved) ->
  bboxes (label w') = bboxes (label w) /\
  class_to_id w' = class_to_id w /\
  save_button_enabled w' = false /\
  save_labels w' = Ok (w', Some saved).
Proof.
  unfold save_labels. intros H.
  destruct (image_path w) as [path|] eqn:Hp; [|discriminate].
  destruct (_ || _) eqn:Hskip; [discriminate|].
  destruct (shown_pixmap (label w)) as [img|] eqn:Hi; [|discriminate].
  bind_inv H. injection H as <- <-. cbn.
  rewrite Hp, Hskip, Hi, Ha. cbn. auto.
Qed.

Lemma save_labels_repeatable_witness :
  exists w w' saved,
    session None (load_800x600 :: drag 100 100 300 400
                  ++ [ReturnPressed "cat"]) = Ok w /\
    save_labels w = Ok (w', Some saved) /\
    save_labels w' = Ok (w', Some saved).
Proof.
  assert (H : session None (load_800x600 :: drag 100 100 300 400
                            ++ [ReturnPressed "cat"]) = Ok _)
    by (vm_compute; reflexivity).
  match type of H with
  | _ = Ok ?w =>
      assert (H1 : save_labels w = Ok (_, Some _))
        by (vm_compute; reflexivity);
      match type of H1 with
      | _ = Ok (?w', Some ?saved) =>
          exists w, w', saved; split; [exact H|]; split; [exact H1|];
          exact (proj2 (proj2 (proj2 (save_labels_repeatable w w' saved H1))))
      end
  end.
Defined.

(** X6: A cancelled file dialog stores the empty path: the editor keeps its
    label, boxes, registry and buttons, but from then on Save returns at once
    and writes nothing, boxes or not, until an image is loaded again. *)
Theorem cancelled_load_blocks_save (tk : Toolkit) (pixmap : QSize)
    (w : LabelingTool) :
  exists w',
    load_image tk "" pixmap w = Ok w' /\
    label w' = label w /\
    class_to_id w' = class_to_id w /\
    save_button_enabled w' = save_button_enabled w /\
    save_labels w' = Ok (w', None).
Proof.
  eexists. split; [reflexivity|]. repeat split.
Qed.

Lemma py_div_zero (a : Qc) : py_div a (Z2Qc 0) = Raise ZeroDivisionError.
Proof.
  unfold py_div. destruct (Qc_eq_dec (Z2Qc 0) (Z2Qc 0)); congruence.
Qed.

(** X5: Loading an image whose pixmap has a zero side (a file that did not
    decode) raises [ZeroDivisionError]; a pixmap with both sides non-zero
    always loads. *)
Theorem load_image_null_pixmap (tk : Toolkit) (path : string)
    (pixmap : QSize) (w : LabelingTool) :
  path <> ""%string ->
  (width pixmap = 0 \/ height pixmap = 0 ->
   load_image tk path pixmap w = Raise ZeroDivisionError) /\
  (width pixmap <> 0 -> height pixmap <> 0 ->
   exists w', load_image tk path pixmap w = Ok w').
Proof.
  intros Hpath. apply String.eqb_neq in Hpath.
  unfold load_image, setPixmap, update_scaled_pixmap. rewrite Hpath.
  cbn [with_original_pixmap original_pixmap label_size label with_image_path].
  split.
  - intros Hz.
    destruct (Z.eq_dec (width pixmap) 0) as [Hw|Hw].
    + rewrite Hw, py_div_zero. reflexivity.
    + destruct Hz as [Hz|Hz]; [contradiction|].
      rewrite py_div_nonzero by (intros E; now apply Z2Qc_inj in E).
      cbn [bind]. rewrite Hz, py_div_zero. reflexivity.
  - intros Hw Hh.
    rewrite !py_div_nonzero by (intros E; now apply Z2Qc_inj in E).
    cbn [bind]. eauto.
Qed.

Lemma load_image_null_pixmap_witness :
  load_image Qt5 "broken.png" (mkSize 0 0)
    (mkTool [] 0 (new_label (mkSize 800 600)) false false None)
  = Raise ZeroDivisionError.
Proof.
  apply (load_image_null_pixmap Qt5 "broken.png" (mkSize 0 0)).
  - discriminate.
  - now left.
Defined.

Lemma init_nonempty_mapping_witness :
  exists m w,
    py_max (dict_values [("car"%string, 7); ("bus"%string, 3)]) = Ok m /\
    init (Some [("car"%string, 7); ("bus"%string, 3)]) = Ok w /\
    current_class_id w = m + 1 /\
    m = 7.
Proof.
  destruct (init_nonempty_mapping [("car"%string, 7); ("bus"%string, 3)])
    as (m & w & Hm & Hinit & _ & Hn & _); [discriminate|].
  exists m, w. repeat split; auto.
  cbn in Hm. now injection Hm as <-.
Defined.

Lemma load_image_effect_witness :
  exists w w',
    session None (load_800x600 :: drag 100 100 300 400
                  ++ [ReturnPressed "cat"] ++ drag 10 10 20 20) = Ok w /\
    load_image Qt5 "b.png" (mkSize 640 480) w = Ok w' /\
    bboxes (label w') = [] /\
    current_bbox (label w') = current_bbox (label w) /\
    class_to_id w' = class_to_id w.
Proof.
  assert (H : session None (load_800x600 :: drag 100 100 300 400
                            ++ [ReturnPressed "cat"] ++ drag 10 10 20 20)
              = Ok _)
    by (vm_compute; reflexivity).
  match type of H with
  | _ = Ok ?w =>
      assert (H1 : load_image Qt5 "b.png" (mkSize 640 480) w = Ok _)
        by (vm_compute; reflexivity);
      match type of H1 with
      | _ = Ok ?w' =>
          destruct (load_image_effect Qt5 "b.png" (mkSize 640 480) w w'
                      ltac:(discriminate) H1)
            as (Hb & Hc & _ & Hd & _);
          exists w, w'; repeat split; auto
      end
  end.
Defined.

Lemma save_labels_written_witness :
  exists w w' saved img,
    session None (LoadImage "a.png" (mkSize 1600 1200)
                  :: drag 100 100 300 400 ++ [ReturnPressed "cat"]) = Ok w /\
    save_labels w = Ok (w', Some saved) /\
    shown_pixmap (label w) = Some img /\
    saved_image saved = img /\
    List.length (saved_lines saved) = List.length (bboxes (label w)).
Proof.
  assert (H : session None (LoadImage "a.png" (mkSize 1600 1200)
                            :: drag 100 100 300 400 ++ [ReturnPressed "cat"])
              = Ok _)
    by (vm_compute; reflexivity).
  match type of H with
  | _ = Ok ?w =>
      assert (H1 : save_labels w = Ok (_, Some _))
        by (vm_compute; reflexivity);
      match type of H1 with
      | _ = Ok (?w', Some ?saved) =>
          destruct (save_labels_written w w' saved H1)
            as (img & Hi & Hs & _ & Hlen);
          exists w, w', saved, img; repeat split; auto
      end
  end.
Defined.

(** With a file system that refuses nothing, the save with file operations
    is [save_labels] together with the manifest. *)
Lemma save_labels_io_all_ok (w : LabelingTool) :
  exists m,
    data_yaml w = Ok m /\
    save_labels_io all_files_ok w
    = match save_labels w with
      | Ok (w', Some saved) => Ok (w', Some (saved, m))
      | Ok (w', None) => Ok (w', None)
      | Raise e => Raise e
      end.
Proof.
  destruct (data_yaml_returns w) as [m Hm]. exists m. split; [exact Hm|].
  unfold save_labels_io, save_labels.
  destruct (image_path w); [|reflexivity].
  destruct (_ || _); [reflexivity|].
  cbn [all_files_ok results_dir_ok label_open_ok label_written_ok yaml_ok
       mapping_ok file_op bind].
  destruct (shown_pixmap (label w)); [|reflexivity].
  destruct (label_lines _ _); [|reflexivity].
  cbn [bind]. rewrite Hm. reflexivity.
Qed.
